(** * Client-side widgets of the CV page (src/src/main.js)

    A shallow embedding of the JavaScript modules [ThemeManager],
    [PDFExport], [PrintHandler], [NavHighlight], [Accessibility] and
    [CertModal], of the page's [init], and of [DarkMode], [ThemeSelector],
    [debounce] and [throttle] of the former script (src/src/main-old.js).
    The part of the browser each module touches is an explicit state
    record; a method is a function on that state.  Methods that call
    [localStorage] live in a small state-and-exception monad, because a
    storage access may throw and a JavaScript exception leaves the
    mutations made before it in place. *)

From stdpp Require Import base strings gmap list option.

Open Scope string_scope.

(** ** JavaScript values handled by the widgets *)

(** [getAttribute] and [localStorage.getItem] answer a string or [null];
    a [dataset] property is a string or [undefined]. *)
Inductive jsval : Type :=
  | JUndefined
  | JNull
  | JStr (s : string).

Global Instance jsval_eq_dec : EqDecision jsval.
Proof. solve_decision. Defined.

(** [if (v)]: of the values above only a non-empty string is truthy. *)
Definition truthy (v : jsval) : bool :=
  match v with
  | JStr s => negb (bool_decide (s = ""))
  | _ => false
  end.

(** [String(v)], as applied by a template literal and by DOM setters. *)
Definition js_to_string (v : jsval) : string :=
  match v with
  | JUndefined => "undefined"
  | JNull => "null"
  | JStr s => s
  end.

(** [a === b] on the three kinds of value above. *)
Definition strict_eq (a b : jsval) : bool := bool_decide (a = b).

(** An attribute that is absent reads as [null]. *)
Definition attr_value (a : option string) : jsval :=
  match a with
  | Some s => JStr s
  | None => JNull
  end.

(** A [dataset] entry that is absent reads as [undefined]. *)
Definition dataset_value (a : option string) : jsval :=
  match a with
  | Some s => JStr s
  | None => JUndefined
  end.

(** ** The page state shared by ThemeManager and PDFExport *)

Inductive exn : Type :=
  | DOMException (name : string).

(** [localStorage]: its entries, and the exception the browser raises on a
    read or on a write, if it raises one (blocked storage, exceeded quota). *)
Record Storage : Type := mkStorage {
  items : gmap string string;
  read_error : option exn;
  write_error : option exn
}.

(** The arrow function handed to [setTimeout] by [exportPDF]; the closure
    holds the [currentTheme] of its own invocation. *)
Inductive callback : Type :=
  | RestoreAfterPrint (currentTheme : jsval).

Record Page : Type := mkPage {
  data_theme : option string;        (* documentElement's data-theme *)
  prefersDark : bool;                (* matchMedia('(prefers-color-scheme: dark)').matches *)
  localStorage : Storage;
  has_toggle : bool;                 (* an element #theme-toggle exists *)
  toggle_listening : bool;           (* its click listener is registered *)
  timers : list (nat * callback);    (* pending timeouts, oldest first *)
  printed : list (option string)     (* data-theme seen by each window.print() *)
}.

Definition set_data_theme (v : option string) (p : Page) : Page :=
  mkPage v (prefersDark p) (localStorage p) (has_toggle p)
         (toggle_listening p) (timers p) (printed p).

Definition set_localStorage (s : Storage) (p : Page) : Page :=
  mkPage (data_theme p) (prefersDark p) s (has_toggle p)
         (toggle_listening p) (timers p) (printed p).

Definition set_toggle_listening (b : bool) (p : Page) : Page :=
  mkPage (data_theme p) (prefersDark p) (localStorage p) (has_toggle p)
         b (timers p) (printed p).

Definition set_timers (t : list (nat * callback)) (p : Page) : Page :=
  mkPage (data_theme p) (prefersDark p) (localStorage p) (has_toggle p)
         (toggle_listening p) t (printed p).

Definition set_printed (l : list (option string)) (p : Page) : Page :=
  mkPage (data_theme p) (prefersDark p) (localStorage p) (has_toggle p)
         (toggle_listening p) (timers p) l.

(** ** A state-and-exception monad for the method bodies *)

Inductive completion (A : Type) : Type :=
  | Normal (a : A)
  | Throw (e : exn).
Arguments Normal {A} a.
Arguments Throw {A} e.

Definition JS (A : Type) : Type := Page → completion A * Page.

Definition js_ret {A} (a : A) : JS A := λ p, (Normal a, p).

Definition js_bind {A B} (m : JS A) (k : A → JS B) : JS B :=
  λ p, match m p with
       | (Normal a, p') => k a p'
       | (Throw e, p') => (Throw e, p')
       end.

Declare Scope js_scope.
Delimit Scope js_scope with js.
Notation "'let!' x := m 'in' k" := (js_bind m (λ x, k))
  (at level 10, x name, m at level 100, k at level 200) : js_scope.
Notation "m ;;; k" := (js_bind m (λ _, k))
  (at level 100, k at level 200, right associativity) : js_scope.

(** The state a method leaves behind, whether it returned or threw. *)
Definition exec {A} (m : JS A) (p : Page) : Page := (m p).2.

(** The method returned normally. *)
Definition returns {A} (m : JS A) (p : Page) : Prop :=
  ∃ a, (m p).1 = Normal a.

(** *** Browser primitives *)

Definition getAttribute_data_theme : JS jsval :=
  λ p, (Normal (attr_value (data_theme p)), p).

Definition setAttribute_data_theme (v : string) : JS unit :=
  λ p, (Normal (), set_data_theme (Some v) p).

Definition removeAttribute_data_theme : JS unit :=
  λ p, (Normal (), set_data_theme None p).

Definition matchMedia_prefers_dark : JS bool :=
  λ p, (Normal (prefersDark p), p).

Definition localStorage_getItem (k : string) : JS jsval :=
  λ p, match read_error (localStorage p) with
       | Some e => (Throw e, p)
       | None => (Normal (attr_value (items (localStorage p) !! k)), p)
       end.

Definition localStorage_setItem (k v : string) : JS unit :=
  λ p, match write_error (localStorage p) with
       | Some e => (Throw e, p)
       | None =>
           let s := localStorage p in
           (Normal (),
            set_localStorage
              (mkStorage (<[k := v]> (items s)) (read_error s) (write_error s)) p)
       end.

Definition addEventListener_toggle_click : JS unit :=
  λ p, (Normal (), set_toggle_listening true p).

Definition setTimeout (cb : callback) (delay : nat) : JS unit :=
  λ p, (Normal (), set_timers (timers p ++ [(delay, cb)]) p).

Definition window_print : JS unit :=
  λ p, (Normal (), set_printed (printed p ++ [data_theme p]) p).

(** ** ThemeManager *)

Module ThemeManager.

Definition STORAGE_KEY : string := "cv-color-scheme".

Definition loadTheme : JS unit :=
  (let! saved := localStorage_getItem STORAGE_KEY in
   if truthy saved
   then setAttribute_data_theme (js_to_string saved)
   else js_ret ())%js.

(** The [if]/[else if]/[else] chain that assigns [next]. *)
Definition next_theme (current : jsval) (prefersDark : bool) : string :=
  if strict_eq current (JStr "dark") then "light"
  else if strict_eq current (JStr "light") then "dark"
  else if prefersDark then "light" else "dark".

Definition switchTheme : JS unit :=
  (let! current := getAttribute_data_theme in
   let! prefersDark := matchMedia_prefers_dark in
   let next := next_theme current prefersDark in
   setAttribute_data_theme next ;;;
   localStorage_setItem STORAGE_KEY next)%js.

Definition init : JS unit :=
  λ p, if has_toggle p
       then (loadTheme ;;; addEventListener_toggle_click)%js p
       else (Normal (), p).

End ThemeManager.

(** ** PDFExport *)

Module PDFExport.

Definition exportPDF : JS unit :=
  (let! currentTheme := getAttribute_data_theme in
   setAttribute_data_theme "light" ;;;
   setTimeout (RestoreAfterPrint currentTheme) 100)%js.

End PDFExport.

(** The body of a scheduled callback. *)
Definition run_callback (cb : callback) : JS unit :=
  match cb with
  | RestoreAfterPrint currentTheme =>
      (window_print ;;;
       if truthy currentTheme
       then setAttribute_data_theme (js_to_string currentTheme)
       else removeAttribute_data_theme)%js
  end.

(** The event loop runs the oldest pending timeout.  Every timeout of the
    page has the same delay, so they expire in the order they were set. *)
Definition fire_timer : JS unit :=
  λ p, match timers p with
       | [] => (Normal (), p)
       | (_, cb) :: rest => run_callback cb (set_timers rest p)
       end.

(** What can happen to the theme: a toggle, an export request, or the
    expiry of the oldest timeout. *)
Inductive event : Type :=
  | Toggle
  | Export
  | TimerFires.

Definition handle (ev : event) : JS unit :=
  match ev with
  | Toggle => ThemeManager.switchTheme
  | Export => PDFExport.exportPDF
  | TimerFires => fire_timer
  end.

(** Events run to completion one after the other; an exception that leaves
    a handler does not stop the loop. *)
Definition run (evs : list event) (p : Page) : Page :=
  foldl (λ q ev, exec (handle ev) q) p evs.

(** [n] consecutive calls of [switchTheme]. *)
Definition toggles (n : nat) (p : Page) : Page :=
  Nat.iter n (exec ThemeManager.switchTheme) p.

(** The value stored under the theme key. *)
Definition persisted (p : Page) : option string :=
  items (localStorage p) !! ThemeManager.STORAGE_KEY.

(** Attribute and stored value agree, absence included. *)
Definition consistent (p : Page) : Prop :=
  data_theme p = persisted p.

(** *** The words of the specification about the toggle *)

Definition opposite (t : string) : string :=
  if bool_decide (t = "dark") then "light" else "dark".

(** "(pref=dark ? light : dark)" *)
Definition inverse_of_preference (prefersDark : bool) : string :=
  if prefersDark then "light" else "dark".

(** "unset → (pref=dark ? light : dark) → opposite → …": the state
    expected after [n] toggles from an unset start. *)
Fixpoint alternation (prefersDark : bool) (n : nat) : option string :=
  match n with
  | 0 => None
  | S m =>
      match alternation prefersDark m with
      | None => Some (inverse_of_preference prefersDark)
      | Some t => Some (opposite t)
      end
  end.

(** *** Sample pages *)

Definition working_storage (m : gmap string string) : Storage :=
  mkStorage m None None.

(** Nothing applied, nothing stored. *)
Definition page_unset (prefersDark : bool) : Page :=
  mkPage None prefersDark (working_storage ∅) true true [] [].

(** The user chose the dark theme earlier. *)
Definition page_dark : Page :=
  mkPage (Some "dark") false
         (working_storage {[ThemeManager.STORAGE_KEY := "dark"]})
         true true [] [].

(** A page left on a palette of the former theme selector. *)
Definition page_legacy : Page :=
  mkPage (Some "modern-tech") true (working_storage ∅) true true [] [].

(** Storage access is denied by the browser. *)
Definition page_blocked : Page :=
  mkPage None false
         (mkStorage ∅ (Some (DOMException "SecurityError"))
                      (Some (DOMException "SecurityError")))
         true false [] [].

(** The attribute the callback leaves, from the value its closure holds. *)
Definition restored (currentTheme : jsval) : option string :=
  if truthy currentTheme then Some (js_to_string currentTheme) else None.

(** ** NavHighlight *)

Module NavHighlight.

(** A navigation link: its [href] attribute and its class list (a
    DOMTokenList: ordered, without repetition). *)
Record link : Type := mkLink {
  href : option string;
  classList : list string
}.

(** One IntersectionObserverEntry: [entry.isIntersecting] and the [id]
    attribute of [entry.target]. *)
Record entry : Type := mkEntry {
  isIntersecting : bool;
  target_id : option string
}.

Definition ACTIVE : string := "nav__link--active".

Definition classList_add (c : string) (l : list string) : list string :=
  if bool_decide (c ∈ l) then l else l ++ [c].

Definition classList_remove (c : string) (l : list string) : list string :=
  filter (λ x, x ≠ c) l.

Definition classList_contains (c : string) (l : list string) : bool :=
  bool_decide (c ∈ l).

(** The body of the [forEach] of [setActive], for one link. *)
Definition mark (id : jsval) (l : link) : link :=
  if strict_eq (attr_value (href l)) (JStr ("#" ++ js_to_string id))
  then mkLink (href l) (classList_add ACTIVE (classList l))
  else mkLink (href l) (classList_remove ACTIVE (classList l)).

Definition setActive (id : jsval) (links : list link) : list link :=
  mark id <$> links.

Definition handleIntersect (entries : list entry) (links : list link)
  : list link :=
  foldl (λ ls e,
           if isIntersecting e
           then setActive (attr_value (target_id e)) ls
           else ls)
        links entries.

(** The link carries the active marker. *)
Definition is_active (l : link) : bool :=
  classList_contains ACTIVE (classList l).

(** The link's target is [#id]. *)
Definition targets (id : string) (l : link) : bool :=
  bool_decide (href l = Some ("#" ++ id)).

(** The section reported last among the intersecting entries of a batch. *)
Definition last_intersecting (entries : list entry) : option jsval :=
  list.last ((λ e, attr_value (target_id e))
             <$> filter (λ e, isIntersecting e = true) entries).

End NavHighlight.

(** ** CertModal *)

(** The elements the modal works on: the image, the title, the dialog, the
    page body and the close button (which may be missing). *)
Record ModalDom : Type := mkModalDom {
  img_src : string;          (* modalImg.src, as assigned *)
  img_alt : string;          (* modalImg.alt *)
  title_text : string;       (* modalTitle.textContent *)
  hidden : bool;             (* modal.hidden *)
  body_overflow : string;    (* document.body.style.overflow *)
  has_closeBtn : bool;
  closeBtn_focused : bool
}.

(** The [dataset] of a trigger element. *)
Record trigger : Type := mkTrigger {
  data_cert : option string;
  data_title : option string
}.

(** Assigning to [textContent]: [null] and [undefined] clear the text. *)
Definition text_of (v : jsval) : string :=
  match v with
  | JStr s => s
  | _ => ""
  end.

(** The statements of [open] after the reading of the dataset. *)
Definition show (certSrc certTitle : jsval) (m : ModalDom) : ModalDom :=
  mkModalDom (js_to_string certSrc)
             ("Certificado " ++ js_to_string certTitle)
             (text_of certTitle)
             false
             "hidden"
             (has_closeBtn m)
             (if has_closeBtn m then true else closeBtn_focused m).

(** [CertModal] of src/src/main.js. *)
Module CertModal.

Definition open (thumb : trigger) (m : ModalDom) : ModalDom :=
  let certSrc := dataset_value (data_cert thumb) in
  let certTitle := dataset_value (data_title thumb) in
  show certSrc certTitle m.

Definition close (m : ModalDom) : ModalDom :=
  mkModalDom (img_src m) (img_alt m) (title_text m) true ""
             (has_closeBtn m) (closeBtn_focused m).

End CertModal.

(** [CertModal] of the second copy of the script (triggers are the
    [.cert-card] elements); its [open] returns early on a falsy source. *)
Module CertModalCard.

Definition open (card : trigger) (m : ModalDom) : ModalDom :=
  let certSrc := dataset_value (data_cert card) in
  let certTitle := dataset_value (data_title card) in
  if negb (truthy certSrc) then m
  else show certSrc certTitle m.

Definition close (m : ModalDom) : ModalDom :=
  mkModalDom (img_src m) (img_alt m) (title_text m) true ""
             (has_closeBtn m) (closeBtn_focused m).

End CertModalCard.

(** *** Sample links and triggers *)

(** Three navigation links, the first one highlighted. *)
Definition sample_links : list NavHighlight.link :=
  [NavHighlight.mkLink (Some "#about") ["nav__link"; "nav__link--active"];
   NavHighlight.mkLink (Some "#skills") ["nav__link"];
   NavHighlight.mkLink None ["nav__link"]].

(** The modal before any certificate was opened. *)
Definition closed_modal : ModalDom :=
  mkModalDom "" "" "" true "" true false.

(** A trigger element without [data-cert]. *)
Definition thumb_without_cert : trigger := mkTrigger None (Some "AWS").

(** ** PrintHandler *)

(** The fields of a keyboard event the handlers read. *)
Record KeyEvent : Type := mkKeyEvent {
  ctrlKey : bool;
  metaKey : bool;
  ev_key : string
}.

Module PrintHandler.

(** The [keydown] listener set by [init]; the result tells whether
    [preventDefault] was called. *)
Definition onKeydown (e : KeyEvent) : JS bool :=
  if (ctrlKey e || metaKey e) && bool_decide (ev_key e = "p")
  then (PDFExport.exportPDF ;;; js_ret true)%js
  else js_ret false.

End PrintHandler.

Global Instance event_eq_dec : EqDecision event.
Proof. solve_decision. Defined.

(** *** Relations between links *)

(** Two links that are the same element up to the active marker. *)
Definition same_but_marker (l l' : NavHighlight.link) : Prop :=
  NavHighlight.href l' = NavHighlight.href l
  ∧ ∀ c, c ≠ NavHighlight.ACTIVE →
         c ∈ NavHighlight.classList l' ↔ c ∈ NavHighlight.classList l.

(** Two links with the same target and the same set of classes. *)
Definition same_classes (l l' : NavHighlight.link) : Prop :=
  NavHighlight.href l' = NavHighlight.href l
  ∧ ∀ c, c ∈ NavHighlight.classList l' ↔ c ∈ NavHighlight.classList l.

(** ** The listeners of CertModal *)

(** What the user can do to the modal once [init] has set its listeners:
    click a trigger, click the close button, click the overlay, press a
    key.  (A click on the overlay occurs only on a page that has one.) *)
Inductive modal_event : Type :=
  | ClickTrigger (t : trigger)
  | ClickClose
  | ClickOverlay
  | Keydown (key : string).

(** The [keydown] listener: [Escape] closes a modal that is not hidden. *)
Definition escape_listener (close : ModalDom → ModalDom)
  (key : string) (m : ModalDom) : ModalDom :=
  if bool_decide (key = "Escape") && negb (hidden m) then close m else m.

(** The listener that answers an event; the close button has one only
    when the button exists ([this.closeBtn?.addEventListener]). *)
Definition modal_listener
  (open : trigger → ModalDom → ModalDom) (close : ModalDom → ModalDom)
  (ev : modal_event) (m : ModalDom) : ModalDom :=
  match ev with
  | ClickTrigger t => open t m
  | ClickClose => if has_closeBtn m then close m else m
  | ClickOverlay => close m
  | Keydown key => escape_listener close key m
  end.

(** The modal of src/src/main.js after a sequence of events. *)
Definition modal_run (evs : list modal_event) (m : ModalDom) : ModalDom :=
  foldl (λ m ev, modal_listener CertModal.open CertModal.close ev m) m evs.

(** The modal of the second copy of the script after a sequence of events. *)
Definition modal_card_run (evs : list modal_event) (m : ModalDom)
  : ModalDom :=
  foldl (λ m ev, modal_listener CertModalCard.open CertModalCard.close ev m)
        m evs.

(** Page scroll is suspended exactly while the modal is shown. *)
Definition scroll_locked_iff_open (m : ModalDom) : Prop :=
  hidden m = false ↔ body_overflow m = "hidden".

(** A modal that is shown has an image source. *)
Definition shown_with_source (m : ModalDom) : Prop :=
  hidden m = false → img_src m ≠ "".

(** ** Accessibility *)

(** An element child of [body], as far as the script sets it. *)
Record region : Type := mkRegion {
  aria_live : option string;
  aria_atomic : option string;
  className : string;
  textContent : string
}.

(** The children of [body] and [Accessibility.liveRegion], which is
    undefined before [createLiveRegion] and afterwards refers to a child
    of [body] by its position. *)
Record A11y : Type := mkA11y {
  body_children : list region;
  liveRegion : option nat
}.

Definition set_textContent (message : string) (r : region) : region :=
  mkRegion (aria_live r) (aria_atomic r) (className r) message.

Module Accessibility.

Definition createLiveRegion (a : A11y) : A11y :=
  mkA11y (body_children a ++ [mkRegion (Some "polite") (Some "true") "sr-only" ""])
         (Some (length (body_children a))).

Definition announce (message : string) (a : A11y) : A11y :=
  match liveRegion a with
  | Some i =>
      mkA11y (alter (set_textContent message) i (body_children a))
             (liveRegion a)
  | None => a
  end.

End Accessibility.

(** ** The page as a whole: [init] *)

(** A listener registered with [addEventListener]. *)
Inductive listener : Type :=
  | AnchorClick (target : string)     (* SmoothScroll, one per a[href^="#"] *)
  | SkipLinkClick                     (* Accessibility *)
  | TriggerClick (t : trigger)        (* CertModal, one per .cert-thumb *)
  | CloseClick
  | OverlayClick
  | EscapeKeydown
  | ExportClick                       (* PDFExport *)
  | PrintKeydown.                     (* PrintHandler *)

Global Instance trigger_eq_dec : EqDecision trigger.
Proof. solve_decision. Defined.

Global Instance listener_eq_dec : EqDecision listener.
Proof. solve_decision. Defined.

(** The document the script runs on: what the selectors of the [init]
    methods find in it, and what those methods leave behind. *)
Record Document : Type := mkDocument {
  doc_page : Page;
  doc_anchors : list string;                (* href of each a[href^="#"] *)
  doc_nav_links : list NavHighlight.link;   (* the .nav__link elements *)
  doc_sections : list string;               (* id of each section[id] *)
  doc_observed : list string;               (* sections given to the observer *)
  doc_skip_link : bool;                     (* .skip-link exists *)
  doc_a11y : A11y;
  doc_modal : option ModalDom;              (* #cert-modal, if it exists *)
  doc_thumbs : list trigger;                (* the .cert-thumb elements *)
  doc_overlay : bool;                       (* .cert-modal__overlay exists *)
  doc_export_btn : bool;                    (* #export-pdf exists *)
  doc_listeners : list listener;            (* registered so far, in order *)
  data_js : option string                   (* documentElement's data-js *)
}.

Definition set_doc_page (p : Page) (d : Document) : Document :=
  mkDocument p (doc_anchors d) (doc_nav_links d) (doc_sections d)
    (doc_observed d) (doc_skip_link d) (doc_a11y d) (doc_modal d)
    (doc_thumbs d) (doc_overlay d) (doc_export_btn d) (doc_listeners d)
    (data_js d).

Definition set_doc_observed (o : list string) (d : Document) : Document :=
  mkDocument (doc_page d) (doc_anchors d) (doc_nav_links d) (doc_sections d)
    o (doc_skip_link d) (doc_a11y d) (doc_modal d)
    (doc_thumbs d) (doc_overlay d) (doc_export_btn d) (doc_listeners d)
    (data_js d).

Definition set_doc_a11y (a : A11y) (d : Document) : Document :=
  mkDocument (doc_page d) (doc_anchors d) (doc_nav_links d) (doc_sections d)
    (doc_observed d) (doc_skip_link d) a (doc_modal d)
    (doc_thumbs d) (doc_overlay d) (doc_export_btn d) (doc_listeners d)
    (data_js d).

Definition add_listeners (ls : list listener) (d : Document) : Document :=
  mkDocument (doc_page d) (doc_anchors d) (doc_nav_links d) (doc_sections d)
    (doc_observed d) (doc_skip_link d) (doc_a11y d) (doc_modal d)
    (doc_thumbs d) (doc_overlay d) (doc_export_btn d)
    (doc_listeners d ++ ls) (data_js d).

Definition set_data_js (v : option string) (d : Document) : Document :=
  mkDocument (doc_page d) (doc_anchors d) (doc_nav_links d) (doc_sections d)
    (doc_observed d) (doc_skip_link d) (doc_a11y d) (doc_modal d)
    (doc_thumbs d) (doc_overlay d) (doc_export_btn d) (doc_listeners d) v.

(** Method bodies on the whole document, with the same exceptions. *)
Definition DocJS (A : Type) : Type := Document → completion A * Document.

Definition doc_bind {A B} (m : DocJS A) (k : A → DocJS B) : DocJS B :=
  λ d, match m d with
       | (Normal a, d') => k a d'
       | (Throw e, d') => (Throw e, d')
       end.

(** A method of the theme part, run on the document. *)
Definition on_page {A} (m : JS A) : DocJS A :=
  λ d, let r := m (doc_page d) in (r.1, set_doc_page r.2 d).

(** A method that cannot throw. *)
Definition doc_do (f : Document → Document) : DocJS unit :=
  λ d, (Normal (), f d).

Module SmoothScroll.

Definition init : DocJS unit :=
  doc_do (λ d, add_listeners (AnchorClick <$> doc_anchors d) d).

End SmoothScroll.

Module NavHighlightInit.

(** [NavHighlight.init]: nothing is observed when the page has no
    navigation link or no section. *)
Definition init : DocJS unit :=
  doc_do (λ d,
    if bool_decide (length (doc_nav_links d) = 0)
       || bool_decide (length (doc_sections d) = 0)
    then d
    else set_doc_observed (doc_observed d ++ doc_sections d) d).

End NavHighlightInit.

Module AccessibilityInit.

Definition init : DocJS unit :=
  doc_do (λ d,
    let d1 := if doc_skip_link d then add_listeners [SkipLinkClick] d else d in
    set_doc_a11y (Accessibility.createLiveRegion (doc_a11y d1)) d1).

End AccessibilityInit.

Module CertModalInit.

Definition init : DocJS unit :=
  doc_do (λ d,
    match doc_modal d with
    | None => d
    | Some m =>
        add_listeners
          ((TriggerClick <$> doc_thumbs d)
           ++ (if has_closeBtn m then [CloseClick] else [])
           ++ (if doc_overlay d then [OverlayClick] else [])
           ++ [EscapeKeydown]) d
    end).

End CertModalInit.

Module PDFExportInit.

Definition init : DocJS unit :=
  doc_do (λ d, if doc_export_btn d then add_listeners [ExportClick] d else d).

End PDFExportInit.

Module PrintHandlerInit.

Definition init : DocJS unit :=
  doc_do (add_listeners [PrintKeydown]).

End PrintHandlerInit.

(** The function [init] at the end of the script. *)
Definition page_init : DocJS unit :=
  doc_bind (on_page ThemeManager.init) (λ _,
  doc_bind SmoothScroll.init (λ _,
  doc_bind NavHighlightInit.init (λ _,
  doc_bind AccessibilityInit.init (λ _,
  doc_bind CertModalInit.init (λ _,
  doc_bind PDFExportInit.init (λ _,
  doc_bind PrintHandlerInit.init (λ _,
  doc_do (set_data_js (Some "true"))))))))).

(** A document with every widget's elements, behind blocked storage. *)
Definition document_blocked : Document :=
  mkDocument page_blocked ["#about"; "#skills"] sample_links
    ["about"; "skills"] [] true (mkA11y [] None) (Some closed_modal)
    [thumb_without_cert] true true [] None.

(** * The former script (src/src/main-old.js) *)

(** ** DarkMode *)

(** [documentElement] as [DarkMode] and [ThemeSelector] use it: the theme
    part of the page, the element's class list, whether the listener for
    changes of the system's colour scheme is registered, and the entries
    of the palette menu. *)
Record theme_option : Type := mkThemeOption {
  option_theme : option string;       (* the option's data-theme *)
  option_classList : list string
}.

Record Html : Type := mkHtml {
  html_page : Page;
  html_classList : list string;
  scheme_listening : bool;
  html_options : list theme_option    (* the .theme-option elements *)
}.

Definition HtmlJS (A : Type) : Type := Html → completion A * Html.

Definition html_bind {A B} (m : HtmlJS A) (k : A → HtmlJS B) : HtmlJS B :=
  λ h, match m h with
       | (Normal a, h') => k a h'
       | (Throw e, h') => (Throw e, h')
       end.

Definition html_ret {A} (a : A) : HtmlJS A := λ h, (Normal a, h).

(** A primitive of the theme part, run on [Html]. *)
Definition on_html {A} (m : JS A) : HtmlJS A :=
  λ h, let r := m (html_page h) in
       (r.1, mkHtml r.2 (html_classList h) (scheme_listening h)
                    (html_options h)).

Definition html_classList_update (f : list string → list string)
  : HtmlJS unit :=
  λ h, (Normal (),
        mkHtml (html_page h) (f (html_classList h)) (scheme_listening h)
               (html_options h)).

Definition html_exec {A} (m : HtmlJS A) (h : Html) : Html := (m h).2.

Module DarkMode.

Definition STORAGE_KEY : string := "cv-theme-preference".
Definition DARK_CLASS : string := "theme-dark".

Definition applyTheme (theme : string) : HtmlJS unit :=
  html_bind
    (if bool_decide (theme = "dark")
     then html_bind
            (html_classList_update (NavHighlight.classList_add DARK_CLASS))
            (λ _, on_html (setAttribute_data_theme "dark"))
     else html_bind
            (html_classList_update (NavHighlight.classList_remove DARK_CLASS))
            (λ _, on_html (setAttribute_data_theme "light")))
    (λ _, on_html (localStorage_setItem STORAGE_KEY theme)).

Definition detectSystemPreference : HtmlJS unit :=
  html_bind (on_html (localStorage_getItem STORAGE_KEY)) (λ saved,
    if truthy saved
    then applyTheme (js_to_string saved)
    else html_bind (on_html matchMedia_prefers_dark) (λ prefersDark,
           applyTheme (if (prefersDark : bool) then "dark" else "light"))).

(** The listener [setupMediaQuery] registers; [matches] is [e.matches]. *)
Definition onSchemeChange (matches : bool) : HtmlJS unit :=
  html_bind (on_html (localStorage_getItem STORAGE_KEY)) (λ saved,
    if negb (truthy saved)
    then applyTheme (if matches then "dark" else "light")
    else html_ret ()).

Definition setupMediaQuery : HtmlJS unit :=
  λ h, (Normal (),
        mkHtml (html_page h) (html_classList h) true (html_options h)).

Definition setupToggleButton : HtmlJS unit := html_ret ().

Definition toggle : HtmlJS unit :=
  html_bind (on_html (localStorage_getItem STORAGE_KEY)) (λ saved,
    let current := if truthy saved then js_to_string saved else "light" in
    let next := if bool_decide (current = "dark") then "light" else "dark" in
    applyTheme next).

Definition init : HtmlJS unit :=
  html_bind detectSystemPreference (λ _,
  html_bind setupMediaQuery (λ _, setupToggleButton)).

End DarkMode.

(** What happens after [DarkMode.init]: a call of [toggle], or the system
    switching its colour scheme (which runs the listener if registered). *)
Inductive dark_event : Type :=
  | DarkToggle
  | SchemeChange (matches : bool).

Definition set_prefersDark (b : bool) (h : Html) : Html :=
  mkHtml (mkPage (data_theme (html_page h)) b (localStorage (html_page h))
                 (has_toggle (html_page h)) (toggle_listening (html_page h))
                 (timers (html_page h)) (printed (html_page h)))
         (html_classList h) (scheme_listening h) (html_options h).

Definition dark_handle (ev : dark_event) (h : Html) : Html :=
  match ev with
  | DarkToggle => html_exec DarkMode.toggle h
  | SchemeChange matches =>
      let h' := set_prefersDark matches h in
      if scheme_listening h'
      then html_exec (DarkMode.onSchemeChange matches) h'
      else h'
  end.

Definition dark_run (evs : list dark_event) (h : Html) : Html :=
  foldl (λ h ev, dark_handle ev h) h evs.

(** The value stored under [DarkMode]'s key. *)
Definition dark_persisted (h : Html) : option string :=
  items (localStorage (html_page h)) !! DarkMode.STORAGE_KEY.

(** Storage raises on neither reads nor writes. *)
Definition storage_works (p : Page) : Prop :=
  read_error (localStorage p) = None ∧ write_error (localStorage p) = None.

(** Dark class, attribute and stored value tell the same theme. *)
Definition dark_coherent (h : Html) : Prop :=
  (data_theme (html_page h) = Some "dark"
   ∨ data_theme (html_page h) = Some "light")
  ∧ (DarkMode.DARK_CLASS ∈ html_classList h
     ↔ data_theme (html_page h) = Some "dark")
  ∧ (dark_persisted h = Some "dark"
     ↔ data_theme (html_page h) = Some "dark")
  ∧ ∃ s, dark_persisted h = Some s ∧ s ≠ "".

(** A first visit with the former script: nothing stored, system on dark. *)
Definition html_first_visit : Html :=
  mkHtml (page_unset true) ["no-js"] false
         [mkThemeOption (Some "modern-tech") ["theme-option"];
          mkThemeOption (Some "crimson-pro") ["theme-option"]].

(** ** debounce and throttle *)

(** Times are whole milliseconds. *)

(** The delay [setTimeout] really waits.  Its argument is converted to a
    signed 32-bit integer (modulo 2^32), and a negative result counts as
    zero: a delay below 2^31 is kept, one from 2^31 up to 2^32 - 1
    expires at once. *)
Definition timeout_delay (ms : N) : N :=
  let w := (ms mod 2 ^ 32)%N in
  if bool_decide (w < 2 ^ 31)%N then w else 0%N.

(** What happens to a wrapped function: it is called, or time passes
    without a call. *)
Inductive tick (Args : Type) : Type :=
  | Call (args : Args)
  | Wait (ms : N).
Arguments Call {Args} args.
Arguments Wait {Args} ms.

(** The closure of [debounce(func, wait)]: the timeout held by the
    variable [timeout] while it is pending (milliseconds left, and the
    arguments its [later] will pass on), and the calls of [func] made. *)
Record Debounced (Args : Type) : Type := mkDebounced {
  db_pending : option (N * Args);
  db_invoked : list Args
}.
Arguments mkDebounced {Args} db_pending db_invoked.
Arguments db_pending {Args} d.
Arguments db_invoked {Args} d.

(** [executedFunction(...args)]: clear the pending timeout, set a new one. *)
Definition debounce_call {Args} (wait : N) (args : Args)
  (s : Debounced Args) : Debounced Args :=
  mkDebounced (Some (timeout_delay wait, args)) (db_invoked s).

(** [ms] milliseconds pass; a timeout that expires runs [later], which
    calls [func] with the arguments of the call that set it. *)
Definition debounce_wait {Args} (ms : N) (s : Debounced Args)
  : Debounced Args :=
  match db_pending s with
  | Some (due, args) =>
      if bool_decide (due ≤ ms)%N
      then mkDebounced None (db_invoked s ++ [args])
      else mkDebounced (Some ((due - ms)%N, args)) (db_invoked s)
  | None => s
  end.

Definition debounce_step {Args} (wait : N) (t : tick Args)
  (s : Debounced Args) : Debounced Args :=
  match t with
  | Call args => debounce_call wait args s
  | Wait ms => debounce_wait ms s
  end.

Definition debounce_run {Args} (wait : N) (ts : list (tick Args))
  (s : Debounced Args) : Debounced Args :=
  foldl (λ s t, debounce_step wait t s) s ts.

(** The closure of [throttle(func, limit)]: the variable [inThrottle]
    (undefined reads as false), the pending timeouts that will reset it
    (milliseconds left, oldest first), and the calls of [func] made. *)
Record Throttled (Args : Type) : Type := mkThrottled {
  th_inThrottle : bool;
  th_timers : list N;
  th_invoked : list Args
}.
Arguments mkThrottled {Args} th_inThrottle th_timers th_invoked.
Arguments th_inThrottle {Args} t.
Arguments th_timers {Args} t.
Arguments th_invoked {Args} t.

Definition throttle_call {Args} (limit : N) (args : Args)
  (s : Throttled Args) : Throttled Args :=
  if negb (th_inThrottle s)
  then mkThrottled true (th_timers s ++ [timeout_delay limit])
                   (th_invoked s ++ [args])
  else s.

(** [ms] milliseconds pass; each timeout that expires sets [inThrottle]
    to false. *)
Definition throttle_wait {Args} (ms : N) (s : Throttled Args)
  : Throttled Args :=
  let expired := filter (λ due, due ≤ ms)%N (th_timers s) in
  let pending := filter (λ due, ¬ (due ≤ ms)%N) (th_timers s) in
  mkThrottled
    (if bool_decide (expired = []) then th_inThrottle s else false)
    ((λ due, (due - ms)%N) <$> pending)
    (th_invoked s).

Definition throttle_step {Args} (limit : N) (t : tick Args)
  (s : Throttled Args) : Throttled Args :=
  match t with
  | Call args => throttle_call limit args s
  | Wait ms => throttle_wait ms s
  end.

Definition throttle_run {Args} (limit : N) (ts : list (tick Args))
  (s : Throttled Args) : Throttled Args :=
  foldl (λ s t, throttle_step limit t s) s ts.


(** Calls, each followed by a pause. *)
Definition burst {Args} (calls : list (Args * N)) : list (tick Args) :=
  calls ≫= (λ c, [Call c.1; Wait c.2]).

(** ** ThemeSelector *)

(** The property names an object literal inherits from [Object.prototype];
    a lookup [this.THEMES[name]] of one of them is truthy. *)
Definition inherited_keys : list string :=
  ["constructor"; "hasOwnProperty"; "isPrototypeOf"; "propertyIsEnumerable";
   "toLocaleString"; "toString"; "valueOf"; "__proto__";
   "__defineGetter__"; "__defineSetter__"; "__lookupGetter__";
   "__lookupSetter__"].

Module ThemeSelector.

Definition STORAGE_KEY : string := "cv-theme".
Definition DEFAULT_THEME : string := "modern-tech".

(** Palette, display name, colour. *)
Definition THEMES : list (string * (string * string)) :=
  [("modern-tech", ("Modern Tech", "#2563eb"));
   ("executive-elite", ("Executive Elite", "#1f2937"));
   ("modern-minimal", ("Modern Minimal", "#047857"));
   ("crimson-pro", ("Crimson Professional", "#dc2626"));
   ("slate-modern", ("Slate Modern", "#475569"))].

(** Whether [this.THEMES[theme]] is truthy. *)
Definition known (theme : jsval) : bool :=
  bool_decide (js_to_string theme ∈ (THEMES.*1 ++ inherited_keys)%list).

(** The body of the [forEach] of [updateActiveOption], for one option. *)
Definition mark_option (currentTheme : jsval) (o : theme_option)
  : theme_option :=
  if strict_eq (attr_value (option_theme o)) currentTheme
  then mkThemeOption (option_theme o)
         (NavHighlight.classList_add "active" (option_classList o))
  else mkThemeOption (option_theme o)
         (NavHighlight.classList_remove "active" (option_classList o)).

Definition updateActiveOption : HtmlJS unit :=
  html_bind (on_html getAttribute_data_theme) (λ currentTheme h,
    (Normal (),
     mkHtml (html_page h) (html_classList h) (scheme_listening h)
            (mark_option currentTheme <$> html_options h))).

Definition setTheme (theme : jsval) (save : bool) : HtmlJS unit :=
  if negb (known theme) then html_ret ()
  else
    html_bind (on_html (setAttribute_data_theme (js_to_string theme))) (λ _,
    html_bind
      (if save
       then on_html (localStorage_setItem STORAGE_KEY (js_to_string theme))
       else html_ret ()) (λ _,
    updateActiveOption)).

Definition loadTheme : HtmlJS unit :=
  html_bind (on_html (localStorage_getItem STORAGE_KEY)) (λ saved,
    setTheme (if truthy saved then saved else JStr DEFAULT_THEME) false).

End ThemeSelector.

(** The value stored under [ThemeSelector]'s key. *)
Definition palette_persisted (h : Html) : option string :=
  items (localStorage (html_page h)) !! ThemeSelector.STORAGE_KEY.

(** The option is marked as the active palette. *)
Definition option_active (o : theme_option) : Prop :=
  "active" ∈ option_classList o.

(** *** Undisturbed exports *)

(** An export request together with the expiry of its timeout; any other
    event on its own. *)
Definition settled (ev : event) : list event :=
  match ev with
  | Export => [Export; TimerFires]
  | _ => [ev]
  end.

(** A sequence of events in which every export runs undisturbed: its
    timeout expires before the next event. *)
Definition undisturbed (evs : list event) : list event :=
  evs ≫= settled.

(** The listeners the page's [init] adds to a document, in the order of
    the modules: anchors, skip link, modal, export button, print
    shortcut. *)
Definition init_listeners (d : Document) : list listener :=
  (AnchorClick <$> doc_anchors d)
  ++ (if doc_skip_link d then [SkipLinkClick] else [])
  ++ match doc_modal d with
     | Some m =>
         (TriggerClick <$> doc_thumbs d)
         ++ (if has_closeBtn m then [CloseClick] else [])
         ++ (if doc_overlay d then [OverlayClick] else [])
         ++ [EscapeKeydown]
     | None => []
     end
  ++ (if doc_export_btn d then [ExportClick] else [])
  ++ [PrintKeydown].

(** The document [d] after a complete [init] that left [p] as its theme
    part. *)
Definition initialised (p : Page) (d : Document) : Document :=
  mkDocument p (doc_anchors d) (doc_nav_links d) (doc_sections d)
    (doc_observed d
     ++ (if bool_decide (length (doc_nav_links d) = 0)
            || bool_decide (length (doc_sections d) = 0)
         then [] else doc_sections d))
    (doc_skip_link d)
    (Accessibility.createLiveRegion (doc_a11y d))
    (doc_modal d) (doc_thumbs d) (doc_overlay d) (doc_export_btn d)
    (doc_listeners d ++ init_listeners d)
    (Some "true").



(** A visit with a value stored by something else under [DarkMode]'s key. *)
Definition html_foreign_value : Html :=
  mkHtml (mkPage None false
            (working_storage {[DarkMode.STORAGE_KEY := "blue"]})
            true true [] [])
         [] false [].

(** * Properties *)

(** ** The theme toggle *)

Section SwitchTheme.

Import ThemeManager.

(** What one call of [switchTheme] does, by the outcome of the write. *)
Lemma switchTheme_run (p : Page) :
  switchTheme p =
    let next := next_theme (attr_value (data_theme p)) (prefersDark p) in
    let p1 := set_data_theme (Some next) p in
    match write_error (localStorage p) with
    | Some e => (Throw e, p1)
    | None =>
        (Normal (),
         set_localStorage
           (mkStorage (<[STORAGE_KEY := next]> (items (localStorage p)))
                      (read_error (localStorage p)) None) p1)
    end.
Proof.
  unfold switchTheme, js_bind, getAttribute_data_theme,
    matchMedia_prefers_dark, setAttribute_data_theme, localStorage_setItem.
  cbn. destruct (write_error (localStorage p)) eqn:E; reflexivity.
Qed.

Lemma switchTheme_data_theme (p : Page) :
  data_theme (exec switchTheme p)
  = Some (next_theme (attr_value (data_theme p)) (prefersDark p)).
Proof.
  unfold exec. rewrite switchTheme_run. cbn.
  destruct (write_error (localStorage p)); reflexivity.
Qed.

Lemma switchTheme_persisted (p : Page) :
  write_error (localStorage p) = None →
  persisted (exec switchTheme p)
  = Some (next_theme (attr_value (data_theme p)) (prefersDark p)).
Proof.
  intros Hw. unfold exec, persisted. rewrite switchTheme_run, Hw. cbn.
  apply lookup_insert_eq.
Qed.

Lemma switchTheme_keeps_environment (p : Page) :
  prefersDark (exec switchTheme p) = prefersDark p
  ∧ write_error (localStorage (exec switchTheme p))
    = write_error (localStorage p).
Proof.
  unfold exec. rewrite switchTheme_run. cbn.
  destruct (write_error (localStorage p)) eqn:E; cbn; auto.
Qed.

Lemma switchTheme_returns (p : Page) :
  write_error (localStorage p) = None → returns switchTheme p.
Proof.
  intros Hw. exists (). rewrite switchTheme_run, Hw. reflexivity.
Qed.

Lemma next_theme_dark pd : next_theme (JStr "dark") pd = "light".
Proof. reflexivity. Qed.

Lemma next_theme_light pd : next_theme (JStr "light") pd = "dark".
Proof. reflexivity. Qed.

Lemma next_theme_other (v : jsval) pd :
  v ≠ JStr "dark" → v ≠ JStr "light" →
  next_theme v pd = inverse_of_preference pd.
Proof.
  intros Hd Hl. unfold next_theme, strict_eq.
  rewrite !bool_decide_eq_false_2 by assumption. reflexivity.
Qed.

Lemma next_theme_binary (v : jsval) pd :
  next_theme v pd = "light" ∨ next_theme v pd = "dark".
Proof.
  unfold next_theme.
  destruct (strict_eq v (JStr "dark")); [by left|].
  destruct (strict_eq v (JStr "light")); [by right|].
  destruct pd; [by left | by right].
Qed.

Lemma next_theme_opposite (t : string) pd :
  t = "light" ∨ t = "dark" → next_theme (JStr t) pd = opposite t.
Proof. intros [-> | ->]; reflexivity. Qed.

Lemma alternation_binary pd n t :
  alternation pd n = Some t → t = "light" ∨ t = "dark".
Proof.
  destruct n as [|n]; cbn; [discriminate|].
  destruct (alternation pd n) as [u|]; intros [= <-].
  - unfold opposite. case_bool_decide; auto.
  - destruct pd; cbn; auto.
Qed.

Lemma toggles_S n p : toggles (S n) p = exec switchTheme (toggles n p).
Proof. reflexivity. Qed.

Lemma toggles_keep_environment n p :
  prefersDark (toggles n p) = prefersDark p
  ∧ write_error (localStorage (toggles n p)) = write_error (localStorage p).
Proof.
  induction n as [|n [IH1 IH2]]; [done|].
  rewrite toggles_S.
  destruct (switchTheme_keeps_environment (toggles n p)) as [-> ->]. done.
Qed.

Lemma toggles_alternate (p : Page) :
  write_error (localStorage p) = None →
  data_theme p = None → persisted p = None →
  ∀ n, data_theme (toggles n p) = alternation (prefersDark p) n
       ∧ persisted (toggles n p) = alternation (prefersDark p) n.
Proof.
  intros Hw Ha Hs n. induction n as [|n [IHa IHs]]; [cbn; auto|].
  destruct (toggles_keep_environment n p) as [Hpd Hwn].
  rewrite toggles_S, switchTheme_data_theme, switchTheme_persisted
    by congruence.
  rewrite IHa, Hpd.
  assert (Some (next_theme (attr_value (alternation (prefersDark p) n))
                           (prefersDark p))
          = alternation (prefersDark p) (S n)) as ->; [|done].
  cbn [alternation].
  destruct (alternation (prefersDark p) n) as [t|] eqn:E; cbn [attr_value].
  - by rewrite (next_theme_opposite t _ (alternation_binary _ _ _ E)).
  - by rewrite next_theme_other.
Qed.

End SwitchTheme.

(** C1. One [switchTheme] turns an applied "dark" into "light", "light"
    into "dark", and an absent attribute into the inverse of the
    environment's preference; the result is applied to the attribute and
    stored.  From an unset start, the attribute and the stored value after
    [n] toggles follow the alternation unset, inverse of the preference,
    its opposite, and so on. *)
Theorem switchTheme_three_way_and_alternation (p : Page) :
  write_error (localStorage p) = None →
  let q := exec ThemeManager.switchTheme p in
  returns ThemeManager.switchTheme p
  ∧ (data_theme p = Some "dark" →
     data_theme q = Some "light" ∧ persisted q = Some "light")
  ∧ (data_theme p = Some "light" →
     data_theme q = Some "dark" ∧ persisted q = Some "dark")
  ∧ (data_theme p = None →
     data_theme q = Some (inverse_of_preference (prefersDark p))
     ∧ persisted q = Some (inverse_of_preference (prefersDark p)))
  ∧ (data_theme p = None → persisted p = None →
     ∀ n, persisted (toggles n p) = alternation (prefersDark p) n
          ∧ data_theme (toggles n p) = alternation (prefersDark p) n).
Proof.
  intros Hw q. subst q.
  rewrite switchTheme_data_theme, switchTheme_persisted by done.
  split; [by apply switchTheme_returns|].
  repeat split.
  - by rewrite H.
  - by rewrite H.
  - by rewrite H.
  - by rewrite H.
  - by rewrite H.
  - by rewrite H.
  - by apply toggles_alternate.
  - by apply toggles_alternate.
Qed.

Lemma switchTheme_three_way_and_alternation_witness :
  write_error (localStorage (page_unset true)) = None
  ∧ data_theme (page_unset true) = None
  ∧ persisted (page_unset true) = None
  ∧ persisted (toggles 3 (page_unset true)) = Some "light".
Proof.
  split; [reflexivity|]. split; [reflexivity|]. split; [reflexivity|].
  destruct (switchTheme_three_way_and_alternation (page_unset true) eq_refl)
    as (_ & _ & _ & _ & H).
  destruct (H eq_refl eq_refl 3) as [-> _]. reflexivity.
Defined.

(** C9. Whatever the attribute holds, [switchTheme] leaves "light" or
    "dark" in it, and the same value in storage when the write succeeds.
    A value that is neither "light" nor "dark" (a palette name of the old
    selector, or no attribute) is handled like the unset state: the result
    is the inverse of the environment's preference. *)
Theorem switchTheme_normalizes (p : Page) :
  let q := exec ThemeManager.switchTheme p in
  (data_theme q = Some "light" ∨ data_theme q = Some "dark")
  ∧ (write_error (localStorage p) = None → persisted q = data_theme q)
  ∧ (data_theme p ≠ Some "light" → data_theme p ≠ Some "dark" →
     data_theme q = Some (inverse_of_preference (prefersDark p))
     ∧ (write_error (localStorage p) = None →
        persisted q = Some (inverse_of_preference (prefersDark p)))).
Proof.
  intros q. subst q. rewrite switchTheme_data_theme.
  split; [|split].
  - destruct (next_theme_binary (attr_value (data_theme p)) (prefersDark p))
      as [-> | ->]; auto.
  - intros Hw. by rewrite switchTheme_persisted.
  - intros Hl Hd.
    assert (ThemeManager.next_theme (attr_value (data_theme p))
                                    (prefersDark p)
            = inverse_of_preference (prefersDark p)) as Hn.
    { apply next_theme_other; destruct (data_theme p); cbn; congruence. }
    split; [by rewrite Hn|].
    intros Hw. by rewrite switchTheme_persisted, Hn.
Qed.

Lemma switchTheme_normalizes_witness :
  data_theme page_legacy ≠ Some "light"
  ∧ data_theme page_legacy ≠ Some "dark"
  ∧ write_error (localStorage page_legacy) = None
  ∧ data_theme (exec ThemeManager.switchTheme page_legacy) = Some "light"
  ∧ persisted (exec ThemeManager.switchTheme page_legacy) = Some "light".
Proof.
  assert (data_theme page_legacy ≠ Some "light") as Hl by (cbn; congruence).
  assert (data_theme page_legacy ≠ Some "dark") as Hd by (cbn; congruence).
  destruct (switchTheme_normalizes page_legacy) as (_ & _ & H).
  destruct (H Hl Hd) as [Ha Hs].
  split; [exact Hl|]. split; [exact Hd|]. split; [reflexivity|].
  split; [exact Ha | exact (Hs eq_refl)].
Defined.

(** C10. The theme [switchTheme] chooses depends on the applied attribute
    and on the environment's preference only: two pages that agree on both
    get the same attribute, and store the same value, however their
    storage contents (and the rest of their state) differ. *)
Theorem switchTheme_ignores_storage (p1 p2 : Page) :
  data_theme p1 = data_theme p2 →
  prefersDark p1 = prefersDark p2 →
  data_theme (exec ThemeManager.switchTheme p1)
  = data_theme (exec ThemeManager.switchTheme p2)
  ∧ (write_error (localStorage p1) = None →
     write_error (localStorage p2) = None →
     persisted (exec ThemeManager.switchTheme p1)
     = persisted (exec ThemeManager.switchTheme p2)).
Proof.
  intros Ha Hp. rewrite !switchTheme_data_theme, Ha, Hp.
  split; [done|]. intros H1 H2.
  by rewrite !switchTheme_persisted, Ha, Hp.
Qed.

Lemma switchTheme_ignores_storage_witness :
  let p1 := mkPage None true
              (working_storage {[ThemeManager.STORAGE_KEY := "dark"]})
              true true [] [] in
  let p2 := page_unset true in
  persisted p1 ≠ persisted p2
  ∧ data_theme (exec ThemeManager.switchTheme p1)
    = data_theme (exec ThemeManager.switchTheme p2).
Proof.
  intros p1 p2. split.
  - vm_compute. discriminate.
  - exact (proj1 (switchTheme_ignores_storage p1 p2 eq_refl eq_refl)).
Defined.

(** ** Storage that throws *)

Lemma init_run (p : Page) :
  ThemeManager.init p =
    if has_toggle p then
      match read_error (localStorage p) with
      | Some e => (Throw e, p)
      | None =>
          let saved :=
            attr_value (items (localStorage p) !! ThemeManager.STORAGE_KEY) in
          (Normal (),
           set_toggle_listening true
             (if truthy saved
              then set_data_theme (Some (js_to_string saved)) p
              else p))
      end
    else (Normal (), p).
Proof.
  unfold ThemeManager.init, ThemeManager.loadTheme, js_bind,
    localStorage_getItem.
  destruct (has_toggle p); [|reflexivity].
  destruct (read_error (localStorage p)); [reflexivity|].
  destruct (truthy _); reflexivity.
Qed.

(** The claim of C4 fails where the browser denies storage access: both
    [init] and [switchTheme] end with the exception. *)
Lemma storage_error_escapes :
  ¬ returns ThemeManager.init page_blocked
  ∧ ¬ returns ThemeManager.switchTheme page_blocked.
Proof.
  split; intros [a Ha]; vm_compute in Ha; discriminate.
Qed.

(** C4, as the code has it.  Neither method handles a storage error.
    When the read raises [e], [init] ends with [e]: the attribute is as
    before and the click listener is not registered.  When the write
    raises [e], [switchTheme] ends with [e] after it has applied the next
    theme to the attribute; nothing is stored.  When storage does not
    raise, both methods return. *)
Theorem storage_errors_propagate (p : Page) (e : exn) :
  (has_toggle p = true → read_error (localStorage p) = Some e →
   ThemeManager.init p = (Throw e, p))
  ∧ (write_error (localStorage p) = Some e →
     ThemeManager.switchTheme p
     = (Throw e,
        set_data_theme
          (Some (ThemeManager.next_theme (attr_value (data_theme p))
                                         (prefersDark p))) p))
  ∧ (read_error (localStorage p) = None → returns ThemeManager.init p)
  ∧ (write_error (localStorage p) = None →
     returns ThemeManager.switchTheme p).
Proof.
  repeat split.
  - intros Ht Hr. by rewrite init_run, Ht, Hr.
  - intros Hw. by rewrite switchTheme_run, Hw.
  - intros Hr. exists (). rewrite init_run, Hr. by destruct (has_toggle p).
  - apply switchTheme_returns.
Qed.

Lemma storage_errors_propagate_witness :
  ThemeManager.init page_blocked
  = (Throw (DOMException "SecurityError"), page_blocked)
  ∧ data_theme (exec ThemeManager.switchTheme page_blocked) = Some "dark"
  ∧ persisted (exec ThemeManager.switchTheme page_blocked) = None
  ∧ returns ThemeManager.switchTheme page_dark.
Proof.
  destruct (storage_errors_propagate page_blocked
              (DOMException "SecurityError")) as (Hi & Hs & _ & _).
  destruct (storage_errors_propagate page_dark
              (DOMException "SecurityError")) as (_ & _ & _ & Hr).
  split; [exact (Hi eq_refl eq_refl)|].
  unfold exec. rewrite (Hs eq_refl).
  split; [reflexivity|]. split; [reflexivity|].
  exact (Hr eq_refl).
Defined.

(** ** The print export *)

Lemma exportPDF_run (p : Page) :
  PDFExport.exportPDF p =
    (Normal (),
     set_timers
       (timers p ++ [(100, RestoreAfterPrint (attr_value (data_theme p)))])
       (set_data_theme (Some "light") p)).
Proof. reflexivity. Qed.

Lemma run_callback_run (c : jsval) (p : Page) :
  run_callback (RestoreAfterPrint c) p =
    (Normal (),
     set_data_theme (restored c) (set_printed (printed p ++ [data_theme p]) p)).
Proof.
  unfold run_callback, js_bind, window_print, restored. cbn.
  destruct (truthy c); reflexivity.
Qed.

Lemma restored_attr (a : option string) :
  a ≠ Some "" → restored (attr_value a) = a.
Proof.
  intros Ha. destruct a as [s|]; [|reflexivity].
  unfold restored. cbn. rewrite bool_decide_eq_false_2; [done|congruence].
Qed.

(** An export followed by the expiry of its timeout, on a page with no
    other timeout pending. *)
Lemma export_then_timer (p : Page) :
  timers p = [] → data_theme p ≠ Some "" →
  run [Export; TimerFires] p = set_printed (printed p ++ [Some "light"]) p.
Proof.
  intros Ht Ha. unfold run. cbn [foldl handle]. unfold exec at 2.
  rewrite exportPDF_run. cbn [snd]. unfold exec, fire_timer.
  cbn [timers set_timers set_data_theme]. rewrite Ht. cbn [app].
  rewrite run_callback_run. cbn. rewrite restored_attr by done.
  destruct p; cbn in *. by subst.
Qed.

(** C2. [exportPDF] reads the current attribute, sets "light" and leaves
    one timeout of 100 ms pending, without printing yet.  When the timeout
    expires the page is printed with "light" applied, and afterwards the
    page is as it was before the export, the print apart: the attribute
    has its former value, and an attribute that was absent is absent
    again. *)
Theorem exportPDF_restores_theme (p : Page) :
  timers p = [] →
  data_theme p ≠ Some "" →
  let p1 := exec PDFExport.exportPDF p in
  let p2 := exec fire_timer p1 in
  returns PDFExport.exportPDF p
  ∧ data_theme p1 = Some "light"
  ∧ printed p1 = printed p
  ∧ timers p1 = [(100, RestoreAfterPrint (attr_value (data_theme p)))]
  ∧ returns fire_timer p1
  ∧ printed p2 = (printed p ++ [Some "light"])%list
  ∧ data_theme p2 = data_theme p
  ∧ (data_theme p = None → data_theme p2 = None)
  ∧ localStorage p2 = localStorage p
  ∧ timers p2 = [].
Proof.
  intros Ht Ha p1 p2.
  assert (p2 = set_printed (printed p ++ [Some "light"])%list p) as Hp2
    by exact (export_then_timer p Ht Ha).
  assert (returns fire_timer p1) as Hr.
  { exists (). subst p1. unfold exec. rewrite exportPDF_run. cbn [snd].
    unfold fire_timer. cbn [timers set_timers set_data_theme].
    rewrite Ht. cbn [app]. by rewrite run_callback_run. }
  split; [by exists ()|].
  split; [done|]. split; [done|].
  split; [subst p1; unfold exec; rewrite exportPDF_run; cbn; by rewrite Ht|].
  split; [exact Hr|].
  rewrite Hp2. cbn. repeat split; done.
Qed.

Lemma exportPDF_restores_theme_witness :
  data_theme (run [Export; TimerFires] page_dark) = Some "dark"
  ∧ data_theme (run [Export; TimerFires] (page_unset true)) = None.
Proof.
  assert (Some "dark" ≠ Some "") as Hd by discriminate.
  assert (@None string ≠ Some "") as Hn by discriminate.
  destruct (exportPDF_restores_theme page_dark eq_refl Hd)
    as (_ & _ & _ & _ & _ & _ & H1 & _).
  destruct (exportPDF_restores_theme (page_unset true) eq_refl Hn)
    as (_ & _ & _ & _ & _ & _ & _ & H2 & _).
  split; [exact H1 | exact (H2 eq_refl)].
Defined.

(** C3 does not hold of the code.  Two exports requested within the delay
    of the first: the second one captures the "light" forced by the first,
    so the page is printed a second time with the dark theme applied and
    is left on "light" instead of "dark". *)
Theorem overlapping_exports_lose_theme :
  let q := run [Export; Export; TimerFires; TimerFires] page_dark in
  data_theme page_dark = Some "dark"
  ∧ timers q = []
  ∧ printed q = [Some "light"; Some "dark"]
  ∧ data_theme q = Some "light"
  ∧ data_theme q ≠ data_theme page_dark.
Proof. cbv zeta. repeat split. discriminate. Qed.

(** The same happens from every start: after two overlapping exports the
    attribute is "light". *)
Lemma overlapping_exports_end_light (p : Page) :
  timers p = [] →
  data_theme (run [Export; Export; TimerFires; TimerFires] p) = Some "light".
Proof.
  intros Ht. destruct p as [a pd st ht tl ts pr]. cbn in Ht. subst ts.
  unfold run, exec. cbn. unfold js_bind. cbn.
  destruct (truthy (attr_value a)); reflexivity.
Qed.

(** Exports that do not overlap restore the theme, however many. *)
Lemma sequential_exports_restore (n : nat) (p : Page) :
  timers p = [] → data_theme p ≠ Some "" →
  data_theme (Nat.iter n (run [Export; TimerFires]) p) = data_theme p
  ∧ timers (Nat.iter n (run [Export; TimerFires]) p) = [].
Proof.
  intros Ht Ha. induction n as [|n [IH1 IH2]]; [done|].
  rewrite Nat.iter_succ, export_then_timer by congruence. done.
Qed.

(** ** Attribute and storage *)

(** The claim of C6 fails on the export: it forces "light" on a page whose
    stored theme is "dark", and storage is not written. *)
Lemma exportPDF_breaks_consistency :
  consistent page_dark ∧ ¬ consistent (exec PDFExport.exportPDF page_dark).
Proof. split; vm_compute; [reflexivity | discriminate]. Qed.

(** A state between undisturbed exports: nothing pending, storage
    writable, attribute and storage in agreement. *)
Lemma settled_keeps_consistent (ev : event) (p : Page) :
  timers p = [] → data_theme p ≠ Some "" →
  write_error (localStorage p) = None → consistent p →
  timers (run (settled ev) p) = []
  ∧ data_theme (run (settled ev) p) ≠ Some ""
  ∧ write_error (localStorage (run (settled ev) p)) = None
  ∧ consistent (run (settled ev) p).
Proof.
  intros Ht Ha Hw Hc. destruct ev; cbn [settled].
  - change (run [Toggle] p) with (exec ThemeManager.switchTheme p).
    destruct (switchTheme_keeps_environment p) as [_ Hk].
    unfold consistent.
    rewrite switchTheme_data_theme, switchTheme_persisted, Hk by done.
    split.
    { unfold exec. rewrite switchTheme_run, Hw. exact Ht. }
    split; [|done].
    destruct (next_theme_binary (attr_value (data_theme p)) (prefersDark p))
      as [-> | ->]; discriminate.
  - by rewrite export_then_timer.
  - change (run [TimerFires] p) with (exec fire_timer p).
    unfold exec, fire_timer. by rewrite Ht.
Qed.

Lemma undisturbed_keeps_consistent (evs : list event) (p : Page) :
  timers p = [] → data_theme p ≠ Some "" →
  write_error (localStorage p) = None → consistent p →
  timers (run (undisturbed evs) p) = []
  ∧ consistent (run (undisturbed evs) p).
Proof.
  revert p. induction evs as [|ev evs IH]; intros p Ht Ha Hw Hc; [done|].
  change (undisturbed (ev :: evs)) with (settled ev ++ undisturbed evs)%list.
  unfold run at 1 2. rewrite foldl_app. fold (run (settled ev) p).
  destruct (settled_keeps_consistent ev p Ht Ha Hw Hc) as (H1 & H2 & H3 & H4).
  exact (IH _ H1 H2 H3 H4).
Qed.

Lemma fire_timer_storage (p : Page) :
  localStorage (exec fire_timer p) = localStorage p.
Proof.
  unfold exec, fire_timer. destruct (timers p) as [|[d [c]] rest]; [done|].
  by rewrite run_callback_run.
Qed.

(** C6, as the code has it.  After every [switchTheme] whose write
    succeeds the attribute equals the stored value.  The export never
    writes storage, neither in [exportPDF] nor in its callback.  Right
    after [exportPDF] the attribute is "light" whatever is stored, so the
    two agree only when "light" is stored; the callback then sets the
    attribute to what its invocation captured.  An export that runs
    undisturbed (no timeout pending when it starts, its own timeout
    expiring before any other event) leaves attribute and storage in
    agreement when they were; so they agree after every sequence of
    toggles and undisturbed exports that starts in agreement. *)
Theorem theme_writers_consistency (p : Page) :
  (write_error (localStorage p) = None →
   consistent (exec ThemeManager.switchTheme p))
  ∧ (localStorage (exec PDFExport.exportPDF p) = localStorage p
     ∧ data_theme (exec PDFExport.exportPDF p) = Some "light"
     ∧ (consistent (exec PDFExport.exportPDF p) ↔ persisted p = Some "light"))
  ∧ (localStorage (exec fire_timer p) = localStorage p
     ∧ ∀ c, data_theme (exec (run_callback (RestoreAfterPrint c)) p)
            = restored c)
  ∧ (timers p = [] → data_theme p ≠ Some "" → consistent p →
     consistent (run [Export; TimerFires] p)
     ∧ localStorage (run [Export; TimerFires] p) = localStorage p)
  ∧ (timers p = [] → data_theme p ≠ Some "" →
     write_error (localStorage p) = None → consistent p →
     ∀ evs, consistent (run (undisturbed evs) p)
            ∧ timers (run (undisturbed evs) p) = []).
Proof.
  split; [|split; [|split; [|split]]].
  - intros Hw. unfold consistent.
    by rewrite switchTheme_data_theme, switchTheme_persisted.
  - split; [done|]. split; [done|].
    unfold consistent, exec. rewrite exportPDF_run. cbn.
    unfold persisted. split; congruence.
  - split; [apply fire_timer_storage|].
    intros c. unfold exec. by rewrite run_callback_run.
  - intros Ht Ha Hc. by rewrite export_then_timer.
  - intros Ht Ha Hw Hc evs.
    destruct (undisturbed_keeps_consistent evs p Ht Ha Hw Hc). done.
Qed.

Lemma theme_writers_consistency_witness :
  consistent (exec ThemeManager.switchTheme page_dark)
  ∧ consistent (run [Export; TimerFires] page_dark)
  ∧ consistent
      (run (undisturbed [Export; Toggle; Export; Toggle; Toggle]) page_dark).
Proof.
  assert (Some "dark" ≠ Some "") as Hd by discriminate.
  assert (consistent page_dark) as Hc by (vm_compute; reflexivity).
  destruct (theme_writers_consistency page_dark) as (H1 & _ & _ & H2 & H3).
  split; [exact (H1 eq_refl)|].
  split; [exact (proj1 (H2 eq_refl Hd Hc))|].
  exact (proj1 (H3 eq_refl Hd eq_refl Hc
                  [Export; Toggle; Export; Toggle; Toggle])).
Defined.

(** Outside these conditions agreement can be lost: a toggle during the
    delay of an export ends with "light" applied and "dark" stored. *)
Lemma disturbed_export_breaks_consistency :
  consistent (page_unset true)
  ∧ ¬ consistent (run [Toggle; Export; Toggle; TimerFires] (page_unset true)).
Proof. split; vm_compute; [reflexivity | discriminate]. Qed.

(** ** Navigation highlight *)

Section NavLinks.

Import NavHighlight.

Lemma strict_eq_attr (a : option string) (s : string) :
  strict_eq (attr_value a) (JStr s) = bool_decide (a = Some s).
Proof.
  unfold strict_eq. apply bool_decide_ext.
  destruct a; cbn; split; congruence.
Qed.

Lemma classList_contains_add c l :
  classList_contains c (classList_add c l) = true.
Proof.
  unfold classList_contains, classList_add.
  apply bool_decide_eq_true_2.
  destruct (bool_decide (c ∈ l)) eqn:E.
  - by apply bool_decide_eq_true in E.
  - set_solver.
Qed.

Lemma classList_contains_remove c l :
  classList_contains c (classList_remove c l) = false.
Proof.
  unfold classList_contains, classList_remove.
  apply bool_decide_eq_false_2. rewrite list_elem_of_filter. tauto.
Qed.

Lemma classList_add_idem c l :
  classList_add c (classList_add c l) = classList_add c l.
Proof.
  pose proof (classList_contains_add c l) as H.
  unfold classList_contains in H. unfold classList_add at 1. by rewrite H.
Qed.

Lemma classList_remove_idem c l :
  classList_remove c (classList_remove c l) = classList_remove c l.
Proof.
  unfold classList_remove. induction l as [|x l IH]; [done|].
  rewrite (filter_cons _ x l). case_decide as Hx; [|done].
  rewrite filter_cons, decide_True by done. by rewrite IH.
Qed.

Lemma href_mark id l : href (mark id l) = href l.
Proof. unfold mark. by destruct (strict_eq _ _). Qed.

Lemma is_active_mark id l :
  is_active (mark id l)
  = bool_decide (href l = Some ("#" ++ js_to_string id)).
Proof.
  unfold mark, is_active. rewrite strict_eq_attr.
  case_bool_decide; cbn [classList].
  - apply classList_contains_add.
  - apply classList_contains_remove.
Qed.

Lemma mark_idem id l : mark id (mark id l) = mark id l.
Proof.
  unfold mark at 1. rewrite href_mark. unfold mark.
  destruct (strict_eq _ _); cbn [href classList]; f_equal.
  - apply classList_add_idem.
  - apply classList_remove_idem.
Qed.

Lemma setActive_href id links :
  href <$> setActive id links = href <$> links.
Proof.
  unfold setActive. rewrite <- list_fmap_compose.
  apply list_fmap_ext. intros _ l _. apply href_mark.
Qed.

Lemma setActive_active id links l :
  l ∈ setActive id links →
  is_active l = true ↔ href l = Some ("#" ++ js_to_string id).
Proof.
  unfold setActive. rewrite list_elem_of_fmap. intros (l0 & -> & _).
  rewrite is_active_mark, href_mark. apply bool_decide_eq_true.
Qed.

Lemma setActive_idem id links :
  setActive id (setActive id links) = setActive id links.
Proof.
  unfold setActive. rewrite <- list_fmap_compose.
  apply list_fmap_ext. intros _ l _. apply mark_idem.
Qed.

Lemma setActive_count id links :
  length (filter (λ l, is_active l = true) (setActive (JStr id) links))
  = length (filter (λ l, targets id l = true) links).
Proof.
  unfold setActive. induction links as [|l links IH]; [done|].
  rewrite fmap_cons.
  destruct (decide (href l = Some ("#" ++ id))) as [H|H].
  - rewrite !filter_cons_True; [cbn; by rewrite IH | |].
    + unfold targets. by apply bool_decide_eq_true_2.
    + rewrite is_active_mark. by apply bool_decide_eq_true_2.
  - rewrite !filter_cons_False; [done | |].
    + unfold targets. rewrite bool_decide_eq_false_2; done.
    + rewrite is_active_mark, bool_decide_eq_false_2; done.
Qed.

End NavLinks.

(** C7. After [setActive id] the links are the same elements, and a link
    carries the active marker exactly when its [href] is "#" followed by
    [id]; so as many links are active as target [#id] (one when one
    matches), and every other link is without the marker.  A second
    [setActive id] changes nothing. *)
Theorem setActive_postcondition_idempotent
  (id : string) (links : list NavHighlight.link) :
  let links' := NavHighlight.setActive (JStr id) links in
  NavHighlight.href <$> links' = NavHighlight.href <$> links
  ∧ (∀ l, l ∈ links' →
          NavHighlight.is_active l = true
          ↔ NavHighlight.href l = Some ("#" ++ id))
  ∧ length (filter (λ l, NavHighlight.is_active l = true) links')
    = length (filter (λ l, NavHighlight.targets id l = true) links)
  ∧ NavHighlight.setActive (JStr id) links' = links'.
Proof.
  intros links'. subst links'. split; [|split; [|split]].
  - apply setActive_href.
  - intros l Hl. exact (setActive_active (JStr id) links l Hl).
  - apply setActive_count.
  - apply setActive_idem.
Qed.

Lemma setActive_postcondition_idempotent_witness :
  NavHighlight.is_active <$> NavHighlight.setActive (JStr "skills") sample_links
  = [false; true; false]
  ∧ NavHighlight.setActive (JStr "skills")
      (NavHighlight.setActive (JStr "skills") sample_links)
    = NavHighlight.setActive (JStr "skills") sample_links.
Proof.
  split; [reflexivity|].
  exact (proj2 (proj2 (proj2
           (setActive_postcondition_idempotent "skills" sample_links)))).
Defined.

Section HandleIntersect.

Import NavHighlight.

Lemma handleIntersect_snoc entries e links :
  handleIntersect (entries ++ [e]) links =
    if isIntersecting e
    then setActive (attr_value (target_id e)) (handleIntersect entries links)
    else handleIntersect entries links.
Proof. unfold handleIntersect. by rewrite foldl_snoc. Qed.

Lemma last_intersecting_snoc entries e :
  last_intersecting (entries ++ [e]) =
    if isIntersecting e
    then Some (attr_value (target_id e))
    else last_intersecting entries.
Proof.
  unfold last_intersecting. rewrite list.filter_app, fmap_app, last_app.
  rewrite filter_cons, filter_nil.
  destruct (isIntersecting e); cbn; reflexivity.
Qed.

Lemma handleIntersect_href entries links :
  href <$> handleIntersect entries links = href <$> links.
Proof.
  induction entries as [|e entries IH] using rev_ind; [done|].
  rewrite handleIntersect_snoc.
  destruct (isIntersecting e); [by rewrite setActive_href|done].
Qed.

Lemma handleIntersect_none entries links :
  last_intersecting entries = None → handleIntersect entries links = links.
Proof.
  induction entries as [|e entries IH] using rev_ind; [done|].
  rewrite last_intersecting_snoc, handleIntersect_snoc.
  destruct (isIntersecting e); [discriminate|exact IH].
Qed.

Lemma handleIntersect_last entries links b l :
  last_intersecting entries = Some b →
  l ∈ handleIntersect entries links →
  is_active l = true ↔ href l = Some ("#" ++ js_to_string b).
Proof.
  induction entries as [|e entries IH] using rev_ind; [discriminate|].
  rewrite last_intersecting_snoc, handleIntersect_snoc.
  destruct (isIntersecting e).
  - intros [= <-]. apply setActive_active.
  - exact IH.
Qed.

End HandleIntersect.

(** C8. One call of [handleIntersect] applies [setActive] for each
    intersecting entry of the batch, in the order of the entries, so the
    section reported last decides: a link is active exactly when it
    targets that section, and a batch without an intersecting entry
    changes nothing.  When sections [A] and then [B] are reported
    intersecting, the links that target [B] are active and those that
    target [A] are not. *)
Theorem handleIntersect_last_write_wins
  (entries : list NavHighlight.entry) (links : list NavHighlight.link) :
  NavHighlight.href <$> NavHighlight.handleIntersect entries links
  = NavHighlight.href <$> links
  ∧ (∀ b l,
       NavHighlight.last_intersecting entries = Some b →
       l ∈ NavHighlight.handleIntersect entries links →
       NavHighlight.is_active l = true
       ↔ NavHighlight.href l = Some ("#" ++ js_to_string b))
  ∧ (NavHighlight.last_intersecting entries = None →
     NavHighlight.handleIntersect entries links = links)
  ∧ (∀ (A B : string) l,
       A ≠ B →
       l ∈ NavHighlight.handleIntersect
             [NavHighlight.mkEntry true (Some A);
              NavHighlight.mkEntry true (Some B)] links →
       (NavHighlight.href l = Some ("#" ++ B) →
        NavHighlight.is_active l = true)
       ∧ (NavHighlight.href l = Some ("#" ++ A) →
          NavHighlight.is_active l = false)).
Proof.
  split; [apply handleIntersect_href|].
  split; [intros b l; apply handleIntersect_last|].
  split; [apply handleIntersect_none|].
  intros A B l Hne Hl.
  pose proof (handleIntersect_last
                [NavHighlight.mkEntry true (Some A);
                 NavHighlight.mkEntry true (Some B)]
                links (JStr B) l eq_refl Hl) as H.
  cbn [js_to_string] in H. split.
  - intros Hb. by apply H.
  - intros Ha. destruct (NavHighlight.is_active l) eqn:E; [|done].
    destruct H as [H _]. specialize (H eq_refl).
    rewrite Ha in H. exfalso. apply Hne. by simplify_eq/=.
Qed.

Lemma handleIntersect_last_write_wins_witness :
  let batch := [NavHighlight.mkEntry true (Some "about");
                NavHighlight.mkEntry true (Some "skills")] in
  "about" ≠ "skills"
  ∧ NavHighlight.is_active <$> NavHighlight.handleIntersect batch sample_links
    = [false; true; false]
  ∧ ∀ l, l ∈ NavHighlight.handleIntersect batch sample_links →
         NavHighlight.href l = Some "#about" →
         NavHighlight.is_active l = false.
Proof.
  intros batch.
  assert ("about" ≠ "skills") as Hne by discriminate.
  split; [exact Hne|]. split; [reflexivity|].
  intros l Hl.
  destruct (handleIntersect_last_write_wins batch sample_links)
    as (_ & _ & _ & H).
  exact (proj2 (H "about" "skills" l Hne Hl)).
Defined.

(** ** The certificate modal *)

(** C5 does not hold of [CertModal.open] in src/src/main.js, which has no
    guard: on a trigger without an image source it shows the modal,
    suspends scrolling, and overwrites image and title. *)
Theorem open_without_source_shows_modal :
  CertModal.open thumb_without_cert closed_modal
  = mkModalDom "undefined" "Certificado AWS" "AWS" false "hidden" true true
  ∧ CertModal.open thumb_without_cert closed_modal ≠ closed_modal
  ∧ hidden (CertModal.open (mkTrigger (Some "") (Some "AWS")) closed_modal)
    = false.
Proof. split; [reflexivity|]. split; [discriminate|reflexivity]. Qed.

(** It does not depend on the modal or on the title: without a guard the
    modal is shown for every trigger. *)
Lemma open_always_shows (thumb : trigger) (m : ModalDom) :
  hidden (CertModal.open thumb m) = false
  ∧ body_overflow (CertModal.open thumb m) = "hidden".
Proof. done. Qed.

(** The second copy of the script has the guard: there, [open] on a
    trigger whose source is absent or empty changes nothing, whether the
    modal is closed or shows an earlier certificate. *)
Lemma open_card_without_source_noop (card : trigger) (m : ModalDom) :
  data_cert card = None ∨ data_cert card = Some "" →
  CertModalCard.open card m = m.
Proof.
  intros [H | H]; unfold CertModalCard.open; by rewrite H.
Qed.

(** With a source, both copies do the same. *)
Lemma open_card_with_source (card : trigger) (m : ModalDom) (src : string) :
  data_cert card = Some src → src ≠ "" →
  CertModalCard.open card m = CertModal.open card m.
Proof.
  intros H Hs. unfold CertModalCard.open, CertModal.open. rewrite H. cbn.
  by rewrite bool_decide_eq_false_2.
Qed.

(** * Further properties of the script *)

(** ** Theme: storing, loading, toggling *)

(** X1. The theme chosen by a toggle survives a reload: on a freshly loaded
    page that has the toggle button and the storage entries the toggle
    left, [init] applies exactly that theme and registers the click
    listener. *)
Theorem theme_survives_reload (p q : Page) :
  write_error (localStorage p) = None →
  has_toggle q = true →
  read_error (localStorage q) = None →
  items (localStorage q)
  = items (localStorage (exec ThemeManager.switchTheme p)) →
  returns ThemeManager.init q
  ∧ data_theme (exec ThemeManager.init q)
    = data_theme (exec ThemeManager.switchTheme p)
  ∧ toggle_listening (exec ThemeManager.init q) = true.
Proof.
  intros Hw Ht Hr Hi.
  pose proof (switchTheme_persisted p Hw) as Hs. unfold persisted in Hs.
  rewrite <- Hi in Hs.
  rewrite switchTheme_data_theme.
  unfold returns, exec. rewrite init_run, Ht, Hr, Hs. cbn.
  destruct (next_theme_binary (attr_value (data_theme p)) (prefersDark p))
    as [-> | ->]; cbn; eauto.
Qed.

Lemma theme_survives_reload_witness :
  data_theme
    (exec ThemeManager.init
       (mkPage None true
          (localStorage (exec ThemeManager.switchTheme (page_unset true)))
          true false [] []))
  = Some "light".
Proof.
  destruct (theme_survives_reload (page_unset true)
              (mkPage None true
                 (localStorage
                    (exec ThemeManager.switchTheme (page_unset true)))
                 true false [] [])
              eq_refl eq_refl eq_refl eq_refl) as (_ & H & _).
  rewrite H. reflexivity.
Defined.

(** X2. [init] only reads storage.  It leaves storage, timeouts and the print
    log as they are, and the attribute changes only to a non-empty value
    stored under the theme key, on a page that has the toggle button.
    Without the button nothing happens at all: a stored theme is not
    applied, and storage is not even read. *)
Theorem init_applies_only_stored_theme (p : Page) :
  let q := exec ThemeManager.init p in
  localStorage q = localStorage p
  ∧ timers q = timers p
  ∧ printed q = printed p
  ∧ (data_theme q = data_theme p
     ∨ ∃ s, s ≠ "" ∧ has_toggle p = true ∧ persisted p = Some s
            ∧ data_theme q = Some s)
  ∧ (has_toggle p = false → ThemeManager.init p = (Normal (), p)).
Proof.
  intros q. subst q. unfold exec. rewrite init_run.
  destruct (has_toggle p) eqn:Ht; [|by repeat split; auto].
  destruct (read_error (localStorage p)) eqn:Hr; [by repeat split; auto|].
  cbn. unfold persisted.
  destruct (items (localStorage p) !! ThemeManager.STORAGE_KEY) as [s|] eqn:Hs;
    cbn; [|by repeat split; auto].
  case_bool_decide as He; cbn; repeat split; auto; try done.
  right. by exists s.
Qed.

(** X3. From the first toggle on, toggling has period two: two more toggles
    bring back the same attribute, and the same stored value when the
    writes succeed, whatever the page started from. *)
Theorem toggles_period_two (p : Page) (n : nat) :
  (1 ≤ n)%nat →
  data_theme (toggles (n + 2)%nat p) = data_theme (toggles n p)
  ∧ (write_error (localStorage p) = None →
     persisted (toggles (n + 2)%nat p) = persisted (toggles n p)).
Proof.
  intros Hn. destruct n as [|n]; [lia|].
  replace (S n + 2)%nat with (S (S (S n))) by lia.
  assert (∀ q, data_theme (exec ThemeManager.switchTheme
                 (exec ThemeManager.switchTheme
                    (exec ThemeManager.switchTheme q)))
               = data_theme (exec ThemeManager.switchTheme q)) as Hattr.
  { intros q. rewrite !switchTheme_data_theme.
    destruct (switchTheme_keeps_environment q) as [-> _].
    destruct (switchTheme_keeps_environment
                (exec ThemeManager.switchTheme q)) as [-> _].
    destruct (switchTheme_keeps_environment q) as [-> _].
    destruct (next_theme_binary (attr_value (data_theme q)) (prefersDark q))
      as [-> | ->]; reflexivity. }
  rewrite !toggles_S. split; [apply Hattr|].
  intros Hw.
  destruct (toggles_keep_environment n p) as [_ Hwn].
  assert (∀ q, write_error (localStorage q) = None →
               persisted (exec ThemeManager.switchTheme q)
               = data_theme (exec ThemeManager.switchTheme q)) as Hpa.
  { intros q Hq. by rewrite switchTheme_persisted, switchTheme_data_theme. }
  assert (∀ q, write_error (localStorage q) = None →
               write_error (localStorage (exec ThemeManager.switchTheme q))
               = None) as Hk.
  { intros q Hq. by destruct (switchTheme_keeps_environment q) as [_ ->]. }
  rewrite !Hpa; [apply Hattr| |]; repeat apply Hk; congruence.
Qed.

Lemma toggles_period_two_witness :
  data_theme (toggles 3 page_legacy) = data_theme (toggles 1 page_legacy)
  ∧ data_theme (toggles 1 page_legacy) = Some "light".
Proof.
  split; [|reflexivity].
  exact (proj1 (toggles_period_two page_legacy 1 (le_n 1))).
Defined.

(** ** Export: interleavings *)

(** X4. A toggle made while an export waits for its timeout.  The toggle sees
    the forced "light", so it applies and stores "dark"; the page is then
    printed with "dark" applied, and the callback puts back the attribute
    captured before the export.  The stored value stays "dark": the
    user's toggle is undone on screen but kept in storage. *)
Theorem toggle_during_export_delay (p : Page) :
  timers p = [] →
  data_theme p ≠ Some "" →
  write_error (localStorage p) = None →
  let q := run [Export; Toggle; TimerFires] p in
  data_theme q = data_theme p
  ∧ persisted q = Some "dark"
  ∧ printed q = (printed p ++ [Some "dark"])%list
  ∧ timers q = [].
Proof.
  intros Ht Ha Hw q. subst q.
  destruct p as [a pd [it re we] ht tl ts pr]. cbn in Ht, Ha, Hw.
  subst ts we.
  unfold run, exec, persisted. cbn. unfold js_bind. cbn.
  destruct a as [s|]; cbn;
    [rewrite bool_decide_eq_false_2 by congruence; cbn|];
    by rewrite lookup_insert_eq.
Qed.

Lemma toggle_during_export_delay_witness :
  data_theme (run [Export; Toggle; TimerFires] (page_unset true)) = None
  ∧ persisted (run [Export; Toggle; TimerFires] (page_unset true))
    = Some "dark".
Proof.
  assert (@None string ≠ Some "") as Hn by discriminate.
  destruct (toggle_during_export_delay (page_unset true) eq_refl Hn eq_refl)
    as (H1 & H2 & _).
  split; [exact H1 | exact H2].
Defined.

(** X5. Exports and their timeouts never write storage (and never change what
    the environment prefers): a run without toggles leaves [localStorage]
    as it found it, however the exports overlap. *)
Theorem exports_never_write_storage (evs : list event) (p : Page) :
  Toggle ∉ evs →
  localStorage (run evs p) = localStorage p
  ∧ prefersDark (run evs p) = prefersDark p.
Proof.
  revert p. induction evs as [|ev evs IH]; intros p Hn; [done|].
  apply not_elem_of_cons in Hn as [Hev Hn].
  change (run (ev :: evs) p) with (run evs (exec (handle ev) p)).
  destruct (IH (exec (handle ev) p) Hn) as [-> ->].
  destruct ev; [done| |].
  - done.
  - unfold exec, handle, fire_timer.
    destruct (timers p) as [|[d [c]] rest]; [done|].
    by rewrite run_callback_run.
Qed.

Lemma exports_never_write_storage_witness :
  localStorage (run [Export; Export; TimerFires; Export; TimerFires] page_dark)
  = localStorage page_dark.
Proof.
  refine (proj1 (exports_never_write_storage
                   [Export; Export; TimerFires; Export; TimerFires]
                   page_dark _)).
  rewrite !not_elem_of_cons. repeat split; try discriminate.
  apply not_elem_of_nil.
Defined.

Lemma prints_and_pending (evs : list event) (p : Page) :
  (length (printed (run evs p)) + length (timers (run evs p))
   = length (printed p) + length (timers p)
     + length (filter (λ ev, ev = Export) evs))%nat.
Proof.
  revert p. induction evs as [|ev evs IH]; intros p; [cbn; lia|].
  change (run (ev :: evs) p) with (run evs (exec (handle ev) p)).
  rewrite IH. destruct ev.
  - rewrite filter_cons_False by discriminate.
    unfold exec, handle. rewrite switchTheme_run. cbn.
    destruct (write_error (localStorage p)); reflexivity.
  - rewrite filter_cons_True by done.
    unfold exec, handle. rewrite exportPDF_run. cbn.
    rewrite length_app. cbn. lia.
  - rewrite filter_cons_False by discriminate.
    unfold exec, handle, fire_timer.
    destruct (timers p) as [|[d [c]] rest] eqn:E; [cbn; rewrite E; cbn; lia|].
    rewrite run_callback_run. cbn. rewrite length_app. cbn. lia.
Qed.

Lemma fire_timer_step (p : Page) (d : nat) (c : jsval)
  (rest : list (nat * callback)) :
  timers p = (d, RestoreAfterPrint c) :: rest →
  timers (exec fire_timer p) = rest
  ∧ printed (exec fire_timer p) = (printed p ++ [data_theme p])%list.
Proof.
  intros Ht. unfold exec, fire_timer. rewrite Ht.
  by rewrite run_callback_run.
Qed.

Lemma handle_printed (ev : event) (p : Page) :
  ∃ more, printed (exec (handle ev) p) = (printed p ++ more)%list.
Proof.
  destruct ev; cbn [handle].
  - exists []. unfold exec. rewrite switchTheme_run, app_nil_r. cbn.
    by destruct (write_error (localStorage p)).
  - exists []. by rewrite app_nil_r.
  - destruct (timers p) as [|[d [c]] rest] eqn:Ht.
    + exists []. unfold exec, fire_timer. by rewrite Ht, app_nil_r.
    + eexists. exact (proj2 (fire_timer_step p d c rest Ht)).
Qed.

Lemma run_printed (evs : list event) (p : Page) :
  ∃ more, printed (run evs p) = (printed p ++ more)%list.
Proof.
  revert p. induction evs as [|ev evs IH]; intros p.
  - exists []. by rewrite app_nil_r.
  - change (run (ev :: evs) p) with (run evs (exec (handle ev) p)).
    destruct (IH (exec (handle ev) p)) as [m2 ->].
    destruct (handle_printed ev p) as [m1 ->].
    exists (m1 ++ m2)%list. by rewrite app_assoc.
Qed.

Lemma timers_drain (n : nat) (p : Page) :
  length (timers p) = n →
  timers (run (replicate n TimerFires) p) = []
  ∧ length (printed (run (replicate n TimerFires) p))
    = (length (printed p) + n)%nat.
Proof.
  revert p. induction n as [|n IH]; intros p Hn.
  - cbn. split; [by apply nil_length_inv|lia].
  - destruct (timers p) as [|[d [c]] rest] eqn:Ht; [discriminate|].
    destruct (fire_timer_step p d c rest Ht) as [H1 H2].
    change (run (replicate (S n) TimerFires) p)
      with (run (replicate n TimerFires) (exec fire_timer p)).
    destruct (IH (exec fire_timer p)) as [H3 H4].
    { rewrite H1. cbn in Hn. lia. }
    split; [exact H3|]. rewrite H4, H2, length_app. cbn. lia.
Qed.

(** X6. Every export request is printed exactly once.  Along any run of
    toggles, export requests and timeout expiries, earlier prints stay in
    the log, and the prints made plus the timeouts still pending are the
    prints and timeouts there were at the start plus the export requests
    of the run.  Each pending timeout, when it expires, makes one print
    and is gone: once the pending timeouts have all expired none is left,
    and the log has grown by exactly one print per timeout that was
    pending at the start and one per export request. *)
Theorem every_export_prints_once (evs : list event) (p : Page) :
  let q := run evs p in
  let q' := run (replicate (length (timers q)) TimerFires) q in
  let exports := length (filter (λ ev, ev = Export) evs) in
  (length (printed q) + length (timers q)
   = length (printed p) + length (timers p) + exports)%nat
  ∧ (∃ more, printed q = (printed p ++ more)%list)
  ∧ timers q' = []
  ∧ (length (printed q')
     = length (printed p) + length (timers p) + exports)%nat
  ∧ (∃ more, printed q' = (printed q ++ more)%list
             ∧ length more = length (timers q)).
Proof.
  intros q q' exports. subst q q' exports.
  pose proof (prints_and_pending evs p) as Hc.
  destruct (timers_drain (length (timers (run evs p))) (run evs p) eq_refl)
    as [Hd1 Hd2].
  split; [exact Hc|]. split; [apply run_printed|].
  split; [exact Hd1|]. split; [lia|].
  destruct (run_printed (replicate (length (timers (run evs p))) TimerFires)
              (run evs p)) as [more Hm].
  exists more. split; [exact Hm|].
  rewrite Hm, length_app in Hd2. lia.
Qed.

(** ** The print shortcut *)

(** X7. The [keydown] listener intercepts exactly Ctrl+p and Cmd+p (key "p" in
    lower case).  Then the browser's own dialog is prevented and an export
    starts, which prints once under "light" and restores the page; for
    every other key event nothing is prevented and the page is untouched. *)
Theorem print_shortcut (e : KeyEvent) (p : Page) :
  timers p = [] →
  data_theme p ≠ Some "" →
  let intercepted :=
    (ctrlKey e || metaKey e) && bool_decide (ev_key e = "p") in
  (PrintHandler.onKeydown e p).1 = Normal intercepted
  ∧ exec fire_timer (exec (PrintHandler.onKeydown e) p)
    = if intercepted
      then set_printed (printed p ++ [Some "light"])%list p
      else p.
Proof.
  intros Ht Ha intercepted. subst intercepted.
  unfold PrintHandler.onKeydown.
  destruct ((ctrlKey e || metaKey e) && bool_decide (ev_key e = "p")).
  - split; [reflexivity|].
    exact (export_then_timer p Ht Ha).
  - split; [reflexivity|].
    unfold exec, js_ret, fire_timer. cbn. by rewrite Ht.
Qed.

Lemma print_shortcut_witness :
  (PrintHandler.onKeydown (mkKeyEvent true false "p") page_dark).1
  = Normal true
  ∧ (PrintHandler.onKeydown (mkKeyEvent true false "P") page_dark).1
    = Normal false.
Proof.
  assert (Some "dark" ≠ Some "") as Hd by discriminate.
  split.
  - exact (proj1 (print_shortcut (mkKeyEvent true false "p") page_dark
                    eq_refl Hd)).
  - exact (proj1 (print_shortcut (mkKeyEvent true false "P") page_dark
                    eq_refl Hd)).
Defined.

(** ** Navigation highlight: what is left alone *)

Section NavFrame.

Import NavHighlight.

Lemma classList_add_other c d l :
  d ≠ c → d ∈ classList_add c l ↔ d ∈ l.
Proof.
  intros Hd. unfold classList_add.
  destruct (bool_decide (c ∈ l)); [done|].
  rewrite elem_of_app, list_elem_of_singleton. tauto.
Qed.

Lemma classList_remove_other c d l :
  d ≠ c → d ∈ classList_remove c l ↔ d ∈ l.
Proof.
  intros Hd. unfold classList_remove. rewrite list_elem_of_filter. tauto.
Qed.

Lemma mark_same_but_marker id l : same_but_marker l (mark id l).
Proof.
  split; [apply href_mark|]. intros c Hc. unfold mark.
  destruct (strict_eq _ _); cbn [classList].
  - by apply classList_add_other.
  - by apply classList_remove_other.
Qed.

Lemma same_but_marker_trans l1 l2 l3 :
  same_but_marker l1 l2 → same_but_marker l2 l3 → same_but_marker l1 l3.
Proof.
  intros [H1 H1'] [H2 H2']. split; [congruence|].
  intros c Hc. by rewrite H2', H1'.
Qed.

Lemma setActive_same_but_marker id links :
  Forall2 same_but_marker links (setActive id links).
Proof.
  unfold setActive. apply Forall2_fmap_r, Forall_Forall2_diag, Forall_forall.
  intros l _. apply mark_same_but_marker.
Qed.

Lemma classList_add_NoDup c l : NoDup l → NoDup (classList_add c l).
Proof.
  intros Hl. unfold classList_add. case_bool_decide as Hc; [done|].
  apply list.NoDup_app. split; [done|]. split; [|apply NoDup_singleton].
  intros x Hx ->%list_elem_of_singleton. done.
Qed.

Lemma classList_remove_NoDup c l : NoDup l → NoDup (classList_remove c l).
Proof. apply list.NoDup_filter. Qed.

Lemma setActive_NoDup id links :
  Forall (λ l, NoDup (classList l)) links →
  Forall (λ l, NoDup (classList l)) (setActive id links).
Proof.
  unfold setActive. rewrite Forall_fmap. apply Forall_impl.
  intros l Hl. unfold mark. cbn.
  destruct (strict_eq _ _); cbn [classList].
  - by apply classList_add_NoDup.
  - by apply classList_remove_NoDup.
Qed.

Lemma is_active_elem l : is_active l = true ↔ ACTIVE ∈ classList l.
Proof. unfold is_active, classList_contains. apply bool_decide_eq_true. Qed.

Lemma mark_overrides a b l : same_classes (mark b l) (mark b (mark a l)).
Proof.
  split; [by rewrite !href_mark|]. intros c.
  destruct (decide (c = ACTIVE)) as [->|Hc].
  - rewrite <- !is_active_elem, !is_active_mark, href_mark. done.
  - destruct (mark_same_but_marker b (mark a l)) as [_ H1].
    destruct (mark_same_but_marker a l) as [_ H2].
    destruct (mark_same_but_marker b l) as [_ H3].
    by rewrite H1, H2, H3.
Qed.

End NavFrame.

(** X8. Whatever batch [handleIntersect] processes, it keeps the links, their
    order and their targets, and touches no class other than the active
    marker: every other class is on a link afterwards exactly when it was
    before. *)
Theorem handleIntersect_touches_only_marker
  (entries : list NavHighlight.entry) (links : list NavHighlight.link) :
  length (NavHighlight.handleIntersect entries links) = length links
  ∧ Forall2 same_but_marker links (NavHighlight.handleIntersect entries links).
Proof.
  assert (Forall2 same_but_marker links
            (NavHighlight.handleIntersect entries links)) as H.
  { induction entries as [|e entries IH] using rev_ind.
    - apply Forall_Forall2_diag, Forall_forall. intros l _.
      by split.
    - rewrite handleIntersect_snoc.
      destruct (NavHighlight.isIntersecting e); [|done].
      eapply Forall2_trans; [|exact IH|apply setActive_same_but_marker].
      intros ???. apply same_but_marker_trans. }
  split; [|done]. symmetry. by eapply Forall2_length.
Qed.

(** X9. The class list of a link is a set of tokens: if no link holds a class
    twice before a batch, none does after it. *)
Theorem handleIntersect_keeps_NoDup
  (entries : list NavHighlight.entry) (links : list NavHighlight.link) :
  Forall (λ l, NoDup (NavHighlight.classList l)) links →
  Forall (λ l, NoDup (NavHighlight.classList l))
         (NavHighlight.handleIntersect entries links).
Proof.
  intros H. induction entries as [|e entries IH] using rev_ind; [done|].
  rewrite handleIntersect_snoc.
  destruct (NavHighlight.isIntersecting e); [|done].
  by apply setActive_NoDup.
Qed.

Lemma handleIntersect_keeps_NoDup_witness :
  Forall (λ l, NoDup (NavHighlight.classList l))
         (NavHighlight.handleIntersect
            [NavHighlight.mkEntry true (Some "skills");
             NavHighlight.mkEntry true (Some "about")] sample_links).
Proof.
  apply handleIntersect_keeps_NoDup.
  apply (bool_decide_unpack _). vm_compute. exact I.
Defined.

(** X10. An earlier [setActive] leaves no trace: after [setActive b], every
    link has the same target and the same set of classes whether or not
    [setActive a] ran before.  (The order of the classes can differ, see
    [setActive_order_differs].) *)
Theorem setActive_overrides (a b : jsval) (links : list NavHighlight.link) :
  Forall2 same_classes
          (NavHighlight.setActive b links)
          (NavHighlight.setActive b (NavHighlight.setActive a links)).
Proof.
  unfold NavHighlight.setActive. rewrite <- list_fmap_compose.
  apply Forall2_fmap, Forall_Forall2_diag, Forall_forall.
  intros l _. apply mark_overrides.
Qed.

Lemma setActive_order_differs :
  NavHighlight.setActive (JStr "about")
    (NavHighlight.setActive (JStr "skills")
       [NavHighlight.mkLink (Some "#about") ["nav__link--active"; "nav__link"]])
  ≠ NavHighlight.setActive (JStr "about")
      [NavHighlight.mkLink (Some "#about") ["nav__link--active"; "nav__link"]].
Proof. vm_compute. discriminate. Qed.

(** ** The modal under its listeners *)

Section Modal.

Lemma show_locks src title m : scroll_locked_iff_open (show src title m).
Proof. by split. Qed.

Lemma close_unlocks m : scroll_locked_iff_open (CertModal.close m).
Proof. by split. Qed.

Lemma modal_listener_locks open close ev m :
  (∀ t m, scroll_locked_iff_open m → scroll_locked_iff_open (open t m)) →
  (∀ m, scroll_locked_iff_open (close m)) →
  scroll_locked_iff_open m →
  scroll_locked_iff_open (modal_listener open close ev m).
Proof.
  intros Hopen Hclose Hm. destruct ev as [t| | |key]; cbn.
  - by apply Hopen.
  - by destruct (has_closeBtn m).
  - apply Hclose.
  - unfold escape_listener. by destruct (_ && _).
Qed.

Lemma open_card_source card m :
  shown_with_source m → shown_with_source (CertModalCard.open card m).
Proof.
  intros Hm. unfold CertModalCard.open.
  destruct (data_cert card) as [s|]; cbn; [|done].
  case_bool_decide as Hs; cbn; [done|]. by intros _.
Qed.

End Modal.

(** X11. Scroll is suspended exactly while the modal is shown.  If that holds
    when the listeners are set (modal hidden, body scrollable), it holds
    after every sequence of trigger clicks, close clicks, overlay clicks
    and key presses, in both copies of the script. *)
Theorem modal_scroll_locked_while_open
  (evs : list modal_event) (m : ModalDom) :
  scroll_locked_iff_open m →
  scroll_locked_iff_open (modal_run evs m)
  ∧ scroll_locked_iff_open (modal_card_run evs m).
Proof.
  intros Hm. split.
  - unfold modal_run.
    induction evs as [|ev evs IH] using rev_ind; [done|].
    rewrite foldl_snoc. apply modal_listener_locks; [| |done].
    + intros t m' _. apply show_locks.
    + apply close_unlocks.
  - unfold modal_card_run.
    induction evs as [|ev evs IH] using rev_ind; [done|].
    rewrite foldl_snoc. apply modal_listener_locks; [| |done].
    + intros t m' Hm'. unfold CertModalCard.open.
      destruct (negb _); [done|apply show_locks].
    + apply close_unlocks.
Qed.

Lemma modal_scroll_locked_while_open_witness :
  scroll_locked_iff_open
    (modal_run [ClickTrigger thumb_without_cert; Keydown "Escape";
                ClickTrigger (mkTrigger (Some "aws.png") (Some "AWS"))]
               closed_modal).
Proof.
  assert (scroll_locked_iff_open closed_modal) as H by (by split).
  exact (proj1 (modal_scroll_locked_while_open _ closed_modal H)).
Defined.

(** X12. How [open] and [close] compose in src/src/main.js.  Opening while
    another certificate is shown replaces it: the result is the same as
    opening on the earlier state.  Closing twice is closing once.  After
    open and close the modal is hidden and the page scrolls, but image,
    alternative text and title stay those of the certificate opened. *)
Theorem modal_open_close_compose (t1 t2 : trigger) (m : ModalDom) :
  CertModal.open t2 (CertModal.open t1 m) = CertModal.open t2 m
  ∧ CertModal.close (CertModal.close m) = CertModal.close m
  ∧ hidden (CertModal.close (CertModal.open t1 m)) = true
  ∧ body_overflow (CertModal.close (CertModal.open t1 m)) = ""
  ∧ img_src (CertModal.close (CertModal.open t1 m))
    = js_to_string (dataset_value (data_cert t1))
  ∧ title_text (CertModal.close (CertModal.open t1 m))
    = text_of (dataset_value (data_title t1)).
Proof.
  repeat split. unfold CertModal.open, show. cbn.
  by destruct (has_closeBtn m).
Qed.

(** X13. In the copy with the guard, a modal that is shown always has an image
    source: no sequence of events leads from a state where this holds to
    a visible modal with an empty source. *)
Theorem modal_card_shown_with_source
  (evs : list modal_event) (m : ModalDom) :
  shown_with_source m → shown_with_source (modal_card_run evs m).
Proof.
  intros Hm. unfold modal_card_run.
  induction evs as [|ev evs IH] using rev_ind; [done|].
  rewrite foldl_snoc. destruct ev as [t| | |key]; cbn.
  - by apply open_card_source.
  - by destruct (has_closeBtn _).
  - done.
  - unfold escape_listener. by destruct (_ && _).
Qed.

Lemma modal_card_shown_with_source_witness :
  shown_with_source
    (modal_card_run [ClickTrigger thumb_without_cert;
                     ClickTrigger (mkTrigger (Some "aws.png") (Some "AWS"))]
                    closed_modal).
Proof.
  assert (shown_with_source closed_modal) as H by (by intros ?).
  exact (modal_card_shown_with_source _ closed_modal H).
Defined.

(** The copy without the guard does not keep that invariant. *)
Lemma modal_shown_without_source :
  shown_with_source closed_modal
  ∧ ¬ shown_with_source
        (modal_run [ClickTrigger (mkTrigger (Some "") (Some "AWS"))]
                   closed_modal).
Proof.
  split; [by intros ?|]. intros H. by apply (H eq_refl).
Qed.

(** ** Announcements *)

(** X14. Before [createLiveRegion] an announcement is dropped.  After it, the
    children [body] had are untouched, one region (polite, atomic, class
    [sr-only]) is appended, and its text is the message announced last
    (empty if none was). *)
Theorem announce_last_message (a : A11y) (messages : list string) :
  (liveRegion a = None →
   foldl (λ s msg, Accessibility.announce msg s) a messages = a)
  ∧ foldl (λ s msg, Accessibility.announce msg s)
          (Accessibility.createLiveRegion a) messages
    = mkA11y
        (body_children a
         ++ [mkRegion (Some "polite") (Some "true") "sr-only"
                      (default "" (list.last messages))])%list
        (Some (length (body_children a))).
Proof.
  split.
  - intros Hn. induction messages as [|msg messages IH] using rev_ind;
      [done|].
    rewrite foldl_snoc, IH. unfold Accessibility.announce. by rewrite Hn.
  - induction messages as [|msg messages IH] using rev_ind; [done|].
    rewrite foldl_snoc, IH, last_snoc.
    unfold Accessibility.announce. cbn. f_equal.
    replace (length (body_children a))
      with (length (body_children a) + 0)%nat at 1 by lia.
    by rewrite alter_app_r.
Qed.

(** ** Start of the page *)

Section PageInit.

Lemma set_doc_page_same d : set_doc_page (doc_page d) d = d.
Proof. by destruct d. Qed.

Lemma document_ext (d1 d2 : Document) :
  doc_page d1 = doc_page d2 →
  doc_anchors d1 = doc_anchors d2 →
  doc_nav_links d1 = doc_nav_links d2 →
  doc_sections d1 = doc_sections d2 →
  doc_observed d1 = doc_observed d2 →
  doc_skip_link d1 = doc_skip_link d2 →
  doc_a11y d1 = doc_a11y d2 →
  doc_modal d1 = doc_modal d2 →
  doc_thumbs d1 = doc_thumbs d2 →
  doc_overlay d1 = doc_overlay d2 →
  doc_export_btn d1 = doc_export_btn d2 →
  doc_listeners d1 = doc_listeners d2 →
  data_js d1 = data_js d2 →
  d1 = d2.
Proof. destruct d1, d2; cbn; intros; by subst. Qed.

(** The six initialisations that follow [ThemeManager.init], and the
    setting of [data-js], run to the end; the document they leave. *)
Lemma rest_of_init_run (d : Document) :
  doc_bind SmoothScroll.init (λ _,
  doc_bind NavHighlightInit.init (λ _,
  doc_bind AccessibilityInit.init (λ _,
  doc_bind CertModalInit.init (λ _,
  doc_bind PDFExportInit.init (λ _,
  doc_bind PrintHandlerInit.init (λ _,
  doc_do (set_data_js (Some "true")))))))) d
  = (Normal (), initialised (doc_page d) d).
Proof.
  destruct d as [p an nl se ob sk a mo th ov ex ls js].
  unfold doc_bind, doc_do, SmoothScroll.init, NavHighlightInit.init,
    AccessibilityInit.init, CertModalInit.init, PDFExportInit.init,
    PrintHandlerInit.init, initialised, init_listeners.
  cbn. f_equal.
  destruct (bool_decide (length nl = 0) || bool_decide (length se = 0));
    destruct sk; destruct mo as [m|]; destruct ex; destruct ov;
    apply document_ext; cbn; try reflexivity;
    try destruct (has_closeBtn m); cbn;
    rewrite ?app_nil_r, <- ?app_assoc; reflexivity.
Qed.

Lemma elem_of_if_singleton (b : bool) (x l : listener) :
  l ∈ (if b then [x] else []) ↔ l = x ∧ b = true.
Proof.
  destruct b.
  - rewrite list_elem_of_singleton. tauto.
  - split; [intros H; by apply elem_of_nil in H|intros [_ ?]; done].
Qed.

(** Which listeners [init] adds. *)
Lemma elem_of_init_listeners (l : listener) (d : Document) :
  l ∈ init_listeners d ↔
    (∃ h, l = AnchorClick h ∧ h ∈ doc_anchors d)
    ∨ (l = SkipLinkClick ∧ doc_skip_link d = true)
    ∨ (∃ m, doc_modal d = Some m
            ∧ ((∃ t, l = TriggerClick t ∧ t ∈ doc_thumbs d)
               ∨ (l = CloseClick ∧ has_closeBtn m = true)
               ∨ (l = OverlayClick ∧ doc_overlay d = true)
               ∨ l = EscapeKeydown))
    ∨ (l = ExportClick ∧ doc_export_btn d = true)
    ∨ l = PrintKeydown.
Proof.
  unfold init_listeners.
  rewrite !elem_of_app, !elem_of_if_singleton, list_elem_of_fmap,
    list_elem_of_singleton.
  destruct (doc_modal d) as [m|].
  - rewrite !elem_of_app, !elem_of_if_singleton, list_elem_of_fmap,
      list_elem_of_singleton.
    split.
    + intros [H|[H|[H|[H|H]]]]; auto.
      right. right. left. exists m. auto.
    + intros [H|[H|[(m' & [= <-] & H)|[H|H]]]]; auto.
  - rewrite elem_of_nil. split.
    + intros [H|[H|[[]|[H|H]]]]; auto.
    + intros [H|[H|[(m' & [=] & _)|[H|H]]]]; auto.
Qed.

End PageInit.

Ltac destruct_listener_case H :=
  match type of H with
  | _ ∨ _ => destruct H as [H|H]
  | _ ∧ _ => let H' := fresh in destruct H as [H' H]
  | ∃ _, _ => let x := fresh in destruct H as [x H]
  end.

(** X15. A storage failure is not contained in the theme widget.  When
    the toggle button exists and reading storage raises [e], the page's
    [init] ends with [e] right in [ThemeManager.init]: no listener of any
    widget is registered, no section is observed, no live region is
    created, [data-js] is not set; the document is as it was.  In every
    other case [init] returns and leaves the document [initialised]: the
    theme part as [ThemeManager.init] leaves it; after the listeners
    there were, one click listener per anchor, the skip link's if there
    is one, the modal's (one per trigger, close button and overlay if
    they exist, and the Escape key) if the modal exists, the export
    button's if it exists, and the print shortcut, in this order; the
    sections observed when the page has navigation links and sections;
    one live region appended; [data-js] set to "true"; nothing else
    changed. *)
Theorem page_init_all_or_nothing (d : Document) :
  (∀ e, has_toggle (doc_page d) = true →
        read_error (localStorage (doc_page d)) = Some e →
        page_init d = (Throw e, d))
  ∧ (has_toggle (doc_page d) = false
     ∨ read_error (localStorage (doc_page d)) = None →
     page_init d
     = (Normal (), initialised (exec ThemeManager.init (doc_page d)) d))
  ∧ (∀ p d',
       d' = initialised p d →
       data_js d' = Some "true"
       ∧ doc_listeners d' = (doc_listeners d ++ init_listeners d)%list
       ∧ PrintKeydown ∈ doc_listeners d'
       ∧ (∀ h, h ∈ doc_anchors d ↔ AnchorClick h ∈ init_listeners d)
       ∧ (SkipLinkClick ∈ init_listeners d ↔ doc_skip_link d = true)
       ∧ (ExportClick ∈ init_listeners d ↔ doc_export_btn d = true)
       ∧ (EscapeKeydown ∈ init_listeners d ↔ is_Some (doc_modal d))
       ∧ (∀ t, TriggerClick t ∈ init_listeners d
               ↔ is_Some (doc_modal d) ∧ t ∈ doc_thumbs d)
       ∧ (CloseClick ∈ init_listeners d
          ↔ ∃ m, doc_modal d = Some m ∧ has_closeBtn m = true)
       ∧ (OverlayClick ∈ init_listeners d
          ↔ is_Some (doc_modal d) ∧ doc_overlay d = true)
       ∧ doc_observed d'
         = (doc_observed d
            ++ (if bool_decide (length (doc_nav_links d) = 0)
                   || bool_decide (length (doc_sections d) = 0)
                then [] else doc_sections d))%list
       ∧ doc_a11y d' = Accessibility.createLiveRegion (doc_a11y d)).
Proof.
  split; [|split].
  - intros e Ht Hr. unfold page_init, doc_bind at 1, on_page.
    rewrite init_run, Ht, Hr. cbn. by rewrite set_doc_page_same.
  - intros Hok.
    assert (∃ p', ThemeManager.init (doc_page d) = (Normal (), p')) as [p' Hp].
    { rewrite init_run. destruct Hok as [-> | ->]; [eauto|].
      destruct (has_toggle _); eauto. }
    unfold page_init, doc_bind at 1, on_page, exec. rewrite Hp.
    cbn [fst snd]. rewrite rest_of_init_run. by destruct d.
  - intros p d' ->. cbn [initialised data_js doc_listeners doc_observed doc_a11y].
    split; [done|]. split; [done|].
    split.
    { apply elem_of_app. right. apply elem_of_init_listeners. auto 10. }
    split.
    { intros h. rewrite elem_of_init_listeners. split; [eauto|].
      intros H. repeat destruct_listener_case H; by simplify_eq. }
    split.
    { rewrite elem_of_init_listeners. split; [|auto].
      intros H. repeat destruct_listener_case H; by simplify_eq. }
    split.
    { rewrite elem_of_init_listeners. split; [|auto 10].
      intros H. repeat destruct_listener_case H; by simplify_eq. }
    split.
    { rewrite elem_of_init_listeners. split.
      - intros H. repeat destruct_listener_case H; by simplify_eq.
      - intros [m Hm]. right. right. left. exists m. auto 10. }
    split.
    { intros t. rewrite elem_of_init_listeners. split.
      - intros H. repeat destruct_listener_case H; simplify_eq; eauto.
      - intros [[m Hm] Ht]. right. right. left. exists m. eauto 10. }
    split.
    { rewrite elem_of_init_listeners. split.
      - intros H. repeat destruct_listener_case H; simplify_eq; eauto.
      - intros (m & Hm & Hc). right. right. left. exists m. auto 10. }
    split; [|done].
    rewrite elem_of_init_listeners. split.
    + intros H. repeat destruct_listener_case H; simplify_eq; eauto.
    + intros [[m Hm] Ho]. right. right. left. exists m. auto 10.
Qed.

Lemma page_init_all_or_nothing_witness :
  page_init document_blocked
  = (Throw (DOMException "SecurityError"), document_blocked)
  ∧ data_js (page_init document_blocked).2 = None
  ∧ doc_listeners (page_init document_blocked).2 = [].
Proof.
  pose proof (proj1 (page_init_all_or_nothing document_blocked)
                (DOMException "SecurityError") eq_refl eq_refl) as H.
  rewrite H. by repeat split.
Defined.

(** * The former script *)

(** ** DarkMode *)

Section DarkMode.

Import DarkMode.

Lemma applyTheme_run (theme : string) (h : Html) :
  write_error (localStorage (html_page h)) = None →
  applyTheme theme h =
    (Normal (),
     mkHtml
       (set_localStorage
          (mkStorage (<[STORAGE_KEY := theme]> (items (localStorage (html_page h))))
                     (read_error (localStorage (html_page h))) None)
          (set_data_theme
             (Some (if bool_decide (theme = "dark") then "dark" else "light"))
             (html_page h)))
       ((if bool_decide (theme = "dark")
         then NavHighlight.classList_add DARK_CLASS
         else NavHighlight.classList_remove DARK_CLASS) (html_classList h))
       (scheme_listening h) (html_options h)).
Proof.
  intros Hw. unfold applyTheme, html_bind, on_html, html_classList_update,
    setAttribute_data_theme, localStorage_setItem.
  destruct (bool_decide (theme = "dark")); cbn; by rewrite Hw.
Qed.

Lemma dark_class_after (theme : string) (l : list string) :
  DARK_CLASS ∈ (if bool_decide (theme = "dark")
                then NavHighlight.classList_add DARK_CLASS
                else NavHighlight.classList_remove DARK_CLASS) l
  ↔ theme = "dark".
Proof.
  case_bool_decide as Ht.
  - pose proof (classList_contains_add DARK_CLASS l) as H.
    apply bool_decide_eq_true in H. tauto.
  - pose proof (classList_contains_remove DARK_CLASS l) as H.
    apply bool_decide_eq_false in H. tauto.
Qed.

(** [applyTheme] with a non-empty theme, on storage that works. *)
Lemma applyTheme_coherent (theme : string) (h : Html) :
  theme ≠ "" → storage_works (html_page h) →
  let h' := html_exec (applyTheme theme) h in
  storage_works (html_page h')
  ∧ dark_coherent h'
  ∧ scheme_listening h' = scheme_listening h
  ∧ prefersDark (html_page h') = prefersDark (html_page h)
  ∧ data_theme (html_page h')
    = Some (if bool_decide (theme = "dark") then "dark" else "light").
Proof.
  intros Hne [Hr Hw] h'. subst h'. unfold html_exec.
  rewrite applyTheme_run by done. cbn.
  split; [done|]. split; [|done].
  unfold dark_coherent, dark_persisted. cbn.
  rewrite lookup_insert_eq, dark_class_after.
  case_bool_decide as Ht; repeat split; try (intros; congruence); eauto.
Qed.

Lemma getItem_works (h : Html) :
  storage_works (html_page h) →
  on_html (localStorage_getItem STORAGE_KEY) h
  = (Normal (attr_value (dark_persisted h)), h).
Proof.
  intros [Hr _]. unfold on_html, localStorage_getItem. rewrite Hr. cbn.
  by destruct h.
Qed.

Lemma truthy_js_to_string (v : jsval) :
  truthy v = true → js_to_string v ≠ "".
Proof.
  destruct v as [| |s]; cbn; try discriminate.
  case_bool_decide; [discriminate|done].
Qed.

Lemma detectSystemPreference_run (h : Html) :
  storage_works (html_page h) →
  ∃ theme, theme ≠ "" ∧ detectSystemPreference h = applyTheme theme h.
Proof.
  intros Hs. unfold detectSystemPreference, html_bind.
  rewrite getItem_works by done.
  destruct (truthy (attr_value (dark_persisted h))) eqn:Ht.
  - eexists. split; [|reflexivity]. by apply truthy_js_to_string.
  - exists (if prefersDark (html_page h) then "dark" else "light").
    split; [by destruct (prefersDark _)|].
    unfold on_html, matchMedia_prefers_dark. cbn. by destruct h.
Qed.

Lemma init_coherent (h : Html) :
  storage_works (html_page h) →
  storage_works (html_page (html_exec init h))
  ∧ dark_coherent (html_exec init h)
  ∧ scheme_listening (html_exec init h) = true.
Proof.
  intros Hs.
  destruct (detectSystemPreference_run h Hs) as (theme & Hne & Hd).
  destruct (applyTheme_coherent theme h Hne Hs) as (H1 & H2 & _).
  unfold html_exec in *. unfold init, html_bind. rewrite Hd.
  rewrite applyTheme_run in * by apply Hs. done.
Qed.

Lemma coherent_saved (h : Html) :
  dark_coherent h → truthy (attr_value (dark_persisted h)) = true.
Proof.
  intros (_ & _ & _ & s & -> & Hs). cbn. by rewrite bool_decide_eq_false_2.
Qed.

Lemma onSchemeChange_idle (matches : bool) (h : Html) :
  storage_works (html_page h) → dark_coherent h →
  onSchemeChange matches h = (Normal (), h).
Proof.
  intros Hs Hc. unfold onSchemeChange, html_bind.
  by rewrite getItem_works, coherent_saved.
Qed.

Lemma toggle_coherent (h : Html) :
  storage_works (html_page h) → dark_coherent h →
  storage_works (html_page (html_exec toggle h))
  ∧ dark_coherent (html_exec toggle h)
  ∧ scheme_listening (html_exec toggle h) = scheme_listening h
  ∧ data_theme (html_page (html_exec toggle h))
    = Some (if bool_decide (data_theme (html_page h) = Some "dark")
            then "light" else "dark").
Proof.
  intros Hs Hc. unfold html_exec, toggle, html_bind.
  rewrite getItem_works, coherent_saved by done.
  destruct Hc as (_ & _ & Hpa & s & Hp & Hne). rewrite Hp in *. cbn.
  set (next := if bool_decide (s = "dark") then "light" else "dark").
  assert (next ≠ "") as Hn by (unfold next; by case_bool_decide).
  destruct (applyTheme_coherent next h Hn Hs) as (H1 & H2 & H3 & _ & H4).
  unfold html_exec in *. split; [done|]. split; [done|]. split; [done|].
  rewrite H4. unfold next. f_equal.
  destruct (decide (s = "dark")) as [->|Hd].
  - rewrite (bool_decide_eq_true_2 (data_theme _ = _)) by (by apply Hpa).
    done.
  - rewrite (bool_decide_eq_false_2 (s = "dark")) by done.
    rewrite (bool_decide_eq_false_2 (data_theme _ = _)); [done|].
    intros Ha. apply Hpa in Ha. congruence.
Qed.

Lemma dark_handle_coherent (ev : dark_event) (h : Html) :
  storage_works (html_page h) → dark_coherent h →
  storage_works (html_page (dark_handle ev h))
  ∧ dark_coherent (dark_handle ev h)
  ∧ scheme_listening (dark_handle ev h) = scheme_listening h.
Proof.
  intros Hs Hc. destruct ev as [|matches]; cbn [dark_handle].
  - destruct (toggle_coherent h Hs Hc) as (?&?&?&?). done.
  - assert (storage_works (html_page (set_prefersDark matches h))) as Hs'
      by done.
    assert (dark_coherent (set_prefersDark matches h)) as Hc' by done.
    destruct (scheme_listening (set_prefersDark matches h)) eqn:E; [|done].
    unfold html_exec. by rewrite onSchemeChange_idle.
Qed.

Lemma dark_run_coherent (evs : list dark_event) (h : Html) :
  storage_works (html_page h) → dark_coherent h →
  storage_works (html_page (dark_run evs h))
  ∧ dark_coherent (dark_run evs h)
  ∧ scheme_listening (dark_run evs h) = scheme_listening h.
Proof.
  intros Hs Hc. unfold dark_run.
  induction evs as [|ev evs (IH1 & IH2 & IH3)] using rev_ind; [done|].
  rewrite foldl_snoc.
  destruct (dark_handle_coherent ev _ IH1 IH2) as (H1 & H2 & H3).
  split; [exact H1|]. split; [exact H2|]. by rewrite H3.
Qed.

End DarkMode.

Section DarkAgree.

Import DarkMode.







End DarkAgree.



(** A foreign value under the key: [init] applies "light" and stores
    the value again; the first toggle replaces it. *)
Lemma dark_foreign_value_kept :
  data_theme (html_page (html_exec DarkMode.init html_foreign_value))
  = Some "light"
  ∧ dark_persisted (html_exec DarkMode.init html_foreign_value) = Some "blue"
  ∧ dark_persisted
      (html_exec DarkMode.toggle (html_exec DarkMode.init html_foreign_value))
    = Some "dark".
Proof. by vm_compute. Qed.

(** X17. [DarkMode.init] stores the theme it applies, also when it took it
    from the system's preference.  The listener for scheme changes
    applies a theme only when nothing is stored, so after [init] it never
    does: whatever the system switches to, and whatever toggles came
    before, a scheme change leaves attribute, classes and storage alone. *)
Theorem dark_mode_never_follows_system
  (h : Html) (evs : list dark_event) (matches : bool) :
  storage_works (html_page h) →
  let h' := dark_run evs (html_exec DarkMode.init h) in
  let h'' := dark_handle (SchemeChange matches) h' in
  scheme_listening h' = true
  ∧ data_theme (html_page h'') = data_theme (html_page h')
  ∧ html_classList h'' = html_classList h'
  ∧ localStorage (html_page h'') = localStorage (html_page h')
  ∧ ∃ s, dark_persisted (html_exec DarkMode.init h) = Some s ∧ s ≠ "".
Proof.
  intros Hs h' h''. subst h' h''.
  destruct (init_coherent h Hs) as (H1 & H2 & H3).
  destruct (dark_run_coherent evs _ H1 H2) as (H4 & H5 & H6).
  rewrite H6, H3. split; [done|].
  cbn [dark_handle].
  assert (scheme_listening
            (set_prefersDark matches
               (dark_run evs (html_exec DarkMode.init h))) = true) as ->
    by (cbn; congruence).
  set (h1 := dark_run evs (html_exec DarkMode.init h)) in *.
  assert (html_exec (DarkMode.onSchemeChange matches)
            (set_prefersDark matches h1) = set_prefersDark matches h1) as ->.
  { unfold html_exec. by rewrite onSchemeChange_idle. }
  cbn. repeat split. by destruct H2 as (_ & _ & _ & ?).
Qed.

Lemma dark_mode_never_follows_system_witness :
  data_theme
    (html_page
       (dark_handle (SchemeChange false)
          (dark_run [] (html_exec DarkMode.init html_first_visit))))
  = Some "dark".
Proof.
  assert (storage_works (html_page html_first_visit)) as Hs by (by split).
  destruct (dark_mode_never_follows_system html_first_visit [] false Hs)
    as (_ & H & _).
  rewrite H. reflexivity.
Defined.

(** ** debounce and throttle *)

Section Debounce.

Context {Args : Type}.

Lemma timeout_delay_small (ms : N) :
  (ms < 2 ^ 31)%N → timeout_delay ms = ms.
Proof.
  intros H. unfold timeout_delay.
  rewrite N.mod_small by lia. by rewrite bool_decide_eq_true_2.
Qed.

Lemma timeout_delay_overflow (ms : N) :
  (2 ^ 31 ≤ ms < 2 ^ 32)%N → timeout_delay ms = 0%N.
Proof.
  intros H. unfold timeout_delay.
  rewrite N.mod_small by lia. rewrite bool_decide_eq_false_2; [done|lia].
Qed.

Lemma burst_cons (c : Args * N) (calls : list (Args * N)) :
  burst (c :: calls) = ([Call c.1; Wait c.2] ++ burst calls)%list.
Proof. reflexivity. Qed.

Lemma debounce_call_then_pause (wait : N) (a : Args) (g : N)
  (s : Debounced Args) :
  (g < timeout_delay wait)%N →
  debounce_wait g (debounce_call wait a s)
  = mkDebounced (Some ((timeout_delay wait - g)%N, a)) (db_invoked s).
Proof.
  intros Hg. unfold debounce_wait, debounce_call. cbn.
  rewrite bool_decide_eq_false_2 by lia. done.
Qed.

Lemma debounce_burst_silent (wait : N) (calls : list (Args * N))
  (s : Debounced Args) :
  Forall (λ c, (c.2 < timeout_delay wait)%N) calls →
  db_invoked (debounce_run wait (burst calls) s) = db_invoked s.
Proof.
  intros H. revert s. induction H as [|[a g] calls Hg _ IH]; intros s; [done|].
  rewrite burst_cons. unfold debounce_run in *. rewrite foldl_app, IH.
  cbn [foldl debounce_step fst snd].
  by rewrite debounce_call_then_pause.
Qed.


End Debounce.

(** X18. [debounce] waits the delay [setTimeout] really applies to
    [wait]: [wait] itself below 2^31, zero from 2^31 up to 2^32 - 1.  A
    debounced function called in a burst, each call followed by less
    than that delay of silence, does not call [func] during the burst;
    the call that is followed by at least that delay makes one call of
    [func], with its own arguments, and leaves no timeout pending.  The
    arguments of the earlier calls are lost. *)
Theorem debounce_fires_once_with_last_call {Args : Type}
  (wait : N) (calls : list (Args * N)) (a : Args) (d : N)
  (s : Debounced Args) :
  Forall (λ c, (c.2 < timeout_delay wait)%N) calls →
  (timeout_delay wait ≤ d)%N →
  db_invoked (debounce_run wait (burst calls) s) = db_invoked s
  ∧ debounce_run wait (burst calls ++ [Call a; Wait d])%list s
    = mkDebounced None (db_invoked s ++ [a])%list
  ∧ ((wait < 2 ^ 31)%N → timeout_delay wait = wait)
  ∧ ((2 ^ 31 ≤ wait < 2 ^ 32)%N → timeout_delay wait = 0%N).
Proof.
  intros Hc Hd. split; [by apply debounce_burst_silent|].
  split; [|split; [apply timeout_delay_small|apply timeout_delay_overflow]].
  unfold debounce_run. rewrite foldl_app. cbn.
  unfold debounce_wait, debounce_call. cbn.
  rewrite bool_decide_eq_true_2 by done.
  f_equal. f_equal. by apply debounce_burst_silent.
Qed.

Lemma debounce_fires_once_with_last_call_witness :
  debounce_run 300
    (burst [("a", 100%N); ("ab", 299%N)] ++ [Call "abc"; Wait 300])%list
    (mkDebounced None [])
  = mkDebounced None ["abc"].
Proof.
  refine (proj1 (proj2 (debounce_fires_once_with_last_call 300
                   [("a", 100%N); ("ab", 299%N)] "abc" 300
                   (mkDebounced None []) _ _))).
  - repeat constructor; vm_compute; reflexivity.
  - vm_compute. discriminate.
Defined.

(** With a delay of 2^31 ms the timeout expires at once: [func] is
    called although no time has passed. *)
Lemma debounce_overflow_fires_at_once :
  debounce_run (2 ^ 31) [Call "a"; Wait 0] (mkDebounced None [])
  = mkDebounced None ["a"].
Proof. by vm_compute. Qed.



(** With a limit of 2^31 ms the throttle resets at once: a second call
    in the same instant goes through. *)
Lemma throttle_overflow_resets_at_once :
  th_invoked
    (throttle_run (2 ^ 31) [Call "a"; Wait 0; Call "b"]
                  (mkThrottled false [] []))
  = ["a"; "b"].
Proof. by vm_compute. Qed.

(** ** ThemeSelector *)

Section ThemeSelector.

Import ThemeSelector.

Lemma palette_known (palette : string) :
  palette ∈ THEMES.*1 → known (JStr palette) = true.
Proof.
  intros H. unfold known. apply bool_decide_eq_true_2. cbn [js_to_string].
  apply elem_of_app. by left.
Qed.

Lemma palette_not_dark_light (palette : string) :
  palette ∈ THEMES.*1 →
  palette ≠ "dark" ∧ palette ≠ "light" ∧ palette ≠ "".
Proof.
  cbn. rewrite !elem_of_cons, elem_of_nil.
  intros [->|[->|[->|[->|[->|[]]]]]]; by repeat split.
Qed.

Lemma setTheme_unsaved_run (palette : string) (h : Html) :
  known (JStr palette) = true →
  setTheme (JStr palette) false h =
    (Normal (),
     mkHtml (set_data_theme (Some palette) (html_page h))
            (html_classList h) (scheme_listening h)
            (mark_option (JStr palette) <$> html_options h)).
Proof.
  intros Hk. unfold setTheme. rewrite Hk. reflexivity.
Qed.

Lemma setTheme_saved_run (palette : string) (h : Html) :
  known (JStr palette) = true →
  write_error (localStorage (html_page h)) = None →
  setTheme (JStr palette) true h =
    (Normal (),
     mkHtml
       (set_localStorage
          (mkStorage
             (<[STORAGE_KEY := palette]> (items (localStorage (html_page h))))
             (read_error (localStorage (html_page h))) None)
          (set_data_theme (Some palette) (html_page h)))
       (html_classList h) (scheme_listening h)
       (mark_option (JStr palette) <$> html_options h)).
Proof.
  intros Hk Hw. unfold setTheme, html_bind, on_html, localStorage_setItem,
    updateActiveOption. rewrite Hk. cbn. rewrite Hw. reflexivity.
Qed.

Lemma mark_option_active (palette : string) (o : theme_option) :
  option_active (mark_option (JStr palette) o)
  ↔ option_theme (mark_option (JStr palette) o) = Some palette.
Proof.
  unfold mark_option, option_active. rewrite strict_eq_attr.
  case_bool_decide as H; cbn.
  - pose proof (classList_contains_add "active" (option_classList o)) as Hc.
    apply bool_decide_eq_true in Hc. tauto.
  - pose proof (classList_contains_remove "active" (option_classList o)) as Hc.
    apply bool_decide_eq_false in Hc. tauto.
Qed.

Lemma loadTheme_run (h : Html) :
  read_error (localStorage (html_page h)) = None →
  loadTheme h =
    setTheme (if truthy (attr_value (palette_persisted h))
              then attr_value (palette_persisted h)
              else JStr DEFAULT_THEME) false h.
Proof.
  intros Hr. unfold loadTheme, html_bind, on_html, localStorage_getItem.
  rewrite Hr. cbn. by destruct h.
Qed.

Lemma loadTheme_palette (palette : string) (h : Html) :
  palette ∈ THEMES.*1 →
  read_error (localStorage (html_page h)) = None →
  palette_persisted h = Some palette →
  loadTheme h =
    (Normal (),
     mkHtml (set_data_theme (Some palette) (html_page h))
            (html_classList h) (scheme_listening h)
            (mark_option (JStr palette) <$> html_options h)).
Proof.
  intros Hp Hr Hs. rewrite loadTheme_run, Hs by done. cbn.
  destruct (palette_not_dark_light palette Hp) as (_ & _ & Hne).
  rewrite bool_decide_eq_false_2 by done. cbn.
  by apply setTheme_unsaved_run, palette_known.
Qed.

Lemma loadTheme_default (h : Html) :
  read_error (localStorage (html_page h)) = None →
  palette_persisted h = None →
  loadTheme h =
    (Normal (),
     mkHtml (set_data_theme (Some DEFAULT_THEME) (html_page h))
            (html_classList h) (scheme_listening h)
            (mark_option (JStr DEFAULT_THEME) <$> html_options h)).
Proof.
  intros Hr Hs. rewrite loadTheme_run, Hs by done. cbn.
  by apply setTheme_unsaved_run.
Qed.

Lemma dark_init_frame (h : Html) :
  storage_works (html_page h) →
  html_options (html_exec DarkMode.init h) = html_options h
  ∧ palette_persisted (html_exec DarkMode.init h) = palette_persisted h.
Proof.
  intros Hs.
  destruct (detectSystemPreference_run h Hs) as (theme & Hne & Hd).
  unfold html_exec, DarkMode.init, html_bind. rewrite Hd.
  rewrite applyTheme_run by apply Hs. cbn. split; [done|].
  unfold palette_persisted. cbn. by rewrite lookup_insert_ne.
Qed.

End ThemeSelector.

(** X20. A palette chosen with [setTheme] survives a reload: on a page that
    has the storage entries [setTheme(palette, true)] left, [loadTheme]
    applies that palette to the attribute and marks as active exactly the
    options of that palette. *)
Theorem palette_survives_reload (h h2 : Html) (palette : string) :
  palette ∈ ThemeSelector.THEMES.*1 →
  write_error (localStorage (html_page h)) = None →
  read_error (localStorage (html_page h2)) = None →
  items (localStorage (html_page h2))
  = items (localStorage
             (html_page
                (html_exec (ThemeSelector.setTheme (JStr palette) true) h))) →
  data_theme (html_page (html_exec ThemeSelector.loadTheme h2)) = Some palette
  ∧ length (html_options (html_exec ThemeSelector.loadTheme h2))
    = length (html_options h2)
  ∧ ∀ o, o ∈ html_options (html_exec ThemeSelector.loadTheme h2) →
         option_active o ↔ option_theme o = Some palette.
Proof.
  intros Hp Hw Hr Hi.
  assert (palette_persisted h2 = Some palette) as Hs.
  { unfold palette_persisted. rewrite Hi. unfold html_exec.
    rewrite setTheme_saved_run by (by try apply palette_known). cbn.
    apply lookup_insert_eq. }
  unfold html_exec. rewrite (loadTheme_palette palette) by done. cbn.
  split; [done|]. split; [by rewrite length_fmap|].
  intros o (o0 & -> & _)%list_elem_of_fmap. apply mark_option_active.
Qed.

Lemma palette_survives_reload_witness :
  data_theme
    (html_page
       (html_exec ThemeSelector.loadTheme
          (mkHtml
             (html_page
                (html_exec (ThemeSelector.setTheme (JStr "crimson-pro") true)
                           html_first_visit))
             [] false (html_options html_first_visit))))
  = Some "crimson-pro".
Proof.
  assert ("crimson-pro" ∈ ThemeSelector.THEMES.*1) as Hp
    by (apply (bool_decide_unpack _); vm_compute; exact I).
  exact (proj1 (palette_survives_reload html_first_visit
                  (mkHtml
                     (html_page
                        (html_exec
                           (ThemeSelector.setTheme (JStr "crimson-pro") true)
                           html_first_visit))
                     [] false (html_options html_first_visit))
                  "crimson-pro" Hp eq_refl eq_refl eq_refl)).
Defined.

(** X21. A name that [THEMES] does not resolve is refused by [setTheme]:
    nothing changes.  [loadTheme] falls back to the default palette only
    when nothing (or the empty string) is stored; a stored name that
    [setTheme] refuses leaves the page without any palette. *)
Theorem unknown_palette_changes_nothing (h : Html) :
  (∀ theme save,
     ThemeSelector.known theme = false →
     ThemeSelector.setTheme theme save h = (Normal (), h))
  ∧ (∀ s, read_error (localStorage (html_page h)) = None →
          palette_persisted h = Some s → s ≠ "" →
          ThemeSelector.known (JStr s) = false →
          ThemeSelector.loadTheme h = (Normal (), h))
  ∧ (read_error (localStorage (html_page h)) = None →
     palette_persisted h = None →
     data_theme (html_page (html_exec ThemeSelector.loadTheme h))
     = Some "modern-tech").
Proof.
  split; [|split].
  - intros theme save Hk. unfold ThemeSelector.setTheme. by rewrite Hk.
  - intros s Hr Hs Hne Hk. rewrite loadTheme_run, Hs by done. cbn.
    rewrite bool_decide_eq_false_2 by done. cbn.
    unfold ThemeSelector.setTheme. by rewrite Hk.
  - intros Hr Hs. unfold html_exec. by rewrite loadTheme_default.
Qed.

(** X22. The palette and the dark mode write the same attribute.  The script
    runs [ThemeSelector.init] before [DarkMode.init]: the palette that
    [loadTheme] puts into [data-theme] is replaced by "dark" or "light",
    while the menu still marks the palette as active and the palette
    stays in storage. *)
Theorem dark_mode_overwrites_palette (h : Html) :
  storage_works (html_page h) →
  (palette_persisted h = None
   ∨ ∃ p, p ∈ ThemeSelector.THEMES.*1 ∧ palette_persisted h = Some p) →
  let h1 := html_exec ThemeSelector.loadTheme h in
  let h2 := html_exec DarkMode.init h1 in
  ∃ palette,
    palette ∈ ThemeSelector.THEMES.*1
    ∧ data_theme (html_page h1) = Some palette
    ∧ (data_theme (html_page h2) = Some "dark"
       ∨ data_theme (html_page h2) = Some "light")
    ∧ data_theme (html_page h2) ≠ Some palette
    ∧ palette_persisted h2 = palette_persisted h
    ∧ ∀ o, o ∈ html_options h2 →
           option_active o ↔ option_theme o = Some palette.
Proof.
  intros Hs Hp h1 h2.
  assert (∃ palette, palette ∈ ThemeSelector.THEMES.*1
            ∧ h1 = mkHtml (set_data_theme (Some palette) (html_page h))
                     (html_classList h) (scheme_listening h)
                     (ThemeSelector.mark_option (JStr palette)
                        <$> html_options h)) as (palette & Hin & Hh1).
  { destruct Hp as [Hn | (p & Hin & Hp)].
    - exists ThemeSelector.DEFAULT_THEME. split; [set_solver|].
      subst h1. unfold html_exec.
      rewrite loadTheme_default; [done|apply Hs|done].
    - exists p. split; [done|]. subst h1. unfold html_exec.
      rewrite (loadTheme_palette p); [done|done|apply Hs|done]. }
  assert (storage_works (html_page h1)) as Hs1 by (by rewrite Hh1).
  destruct (init_coherent h1 Hs1) as (_ & (Hdl & _) & _).
  destruct (dark_init_frame h1 Hs1) as [Ho Hpp].
  destruct (palette_not_dark_light palette Hin) as (Hd & Hl & _).
  exists palette. subst h2.
  split; [done|]. split; [by rewrite Hh1|]. split; [done|].
  split; [destruct Hdl as [-> | ->]; congruence|].
  split; [rewrite Hpp; by rewrite Hh1|].
  rewrite Ho, Hh1. cbn.
  intros o (o0 & -> & _)%list_elem_of_fmap. apply mark_option_active.
Qed.

Lemma dark_mode_overwrites_palette_witness :
  data_theme (html_page (html_exec ThemeSelector.loadTheme html_first_visit))
  = Some "modern-tech"
  ∧ data_theme
      (html_page
         (html_exec DarkMode.init
            (html_exec ThemeSelector.loadTheme html_first_visit)))
    ≠ Some "modern-tech".
Proof.
  assert (storage_works (html_page html_first_visit)) as Hs by (by split).
  destruct (dark_mode_overwrites_palette html_first_visit Hs (or_introl eq_refl))
    as (p & _ & H1 & _ & H2 & _).
  split; [reflexivity|].
  assert (p = "modern-tech") as -> by (vm_compute in H1; congruence).
  exact H2.
Defined.

(** [THEMES] is an object literal, so the guard of [setTheme] also lets
    through the names it inherits. *)
Lemma setTheme_accepts_inherited_name :
  data_theme
    (html_page
       (html_exec (ThemeSelector.setTheme (JStr "constructor") false)
                  html_first_visit))
  = Some "constructor".
Proof. reflexivity. Qed.
